(** * Password hashing with salt: the hash service of DID25_HashPwdWithSalt

    A shallow embedding of [src/services/hash.ts] together with the parts of
    the JavaScript platform it runs on (strings of UTF-16 code units,
    [TextEncoder], [Uint8Array], [crypto.getRandomValues],
    [crypto.subtle.digest]) and the statements of the specification that are
    checked against it; then the user store ([services/store.ts]) and the
    submit handlers of the two forms that call the service. *)

From Stdlib Require Import List Arith NArith Lia Bool.
From Stdlib.Strings Require Import Ascii String Byte.
Import ListNotations.

Local Open Scope N_scope.

(** ** JavaScript strings *)

Module JS.

(** A JavaScript string is a finite sequence of UTF-16 code units; every
    code unit is a number below [2^16]. *)
Definition jsstring := list N.

(** The JavaScript string of an ASCII literal of the source. *)
Fixpoint lit (s : string) : jsstring :=
  match s with
  | EmptyString => []
  | String c s' => N_of_ascii c :: lit s'
  end.

(** The empty string ['']. *)
Definition empty_string : jsstring := [].

(** [a === b] on two strings: same length, same code units. *)
Fixpoint strict_eq (a b : jsstring) : bool :=
  match a, b with
  | [], [] => true
  | x :: a', y :: b' => (x =? y) && strict_eq a' b'
  | _, _ => false
  end.

(** [parts.join(sep)]. *)
Fixpoint join (sep : jsstring) (parts : list jsstring) : jsstring :=
  match parts with
  | [] => []
  | [p] => p
  | p :: rest => p ++ sep ++ join sep rest
  end.

(** The digit of [d < 36] as [Number.prototype.toString] writes it:
    ['0'..'9'] then lowercase ['a'..'z']. *)
Definition digit (d : N) : N :=
  if d <? 10 then 48 + d else 97 + (d - 10).

Fixpoint digits16 (fuel : nat) (n : N) (acc : jsstring) : jsstring :=
  let acc' := digit (n mod 16) :: acc in
  match fuel with
  | O => acc'
  | S fuel' => if n <? 16 then acc' else digits16 fuel' (n / 16) acc'
  end.

(** [n.toString(16)] for a non-negative integer [n]. *)
Definition toString16 (n : N) : jsstring :=
  digits16 (N.to_nat (N.size n)) n [].

(** The first [n] code units of [pad] repeated for ever ([pad] not empty). *)
Fixpoint cycle (n : nat) (pad cur : jsstring) : jsstring :=
  match n with
  | O => []
  | S n' =>
      match cur with
      | c :: cur' => c :: cycle n' pad cur'
      | [] =>
          match pad with
          | c :: cur' => c :: cycle n' pad cur'
          | [] => []
          end
      end
  end.

(** [s.padStart(target, pad)]. *)
Definition padStart (target : nat) (pad s : jsstring) : jsstring :=
  if Nat.leb target (List.length s) then s
  else match pad with
       | [] => s
       | _ => cycle (target - List.length s) pad pad ++ s
       end.

(** Outcome of a call: a value, or a thrown exception (for an [async]
    function: the promise is fulfilled, or rejected). *)
Inductive JsError : Type :=
| QuotaExceededError
| Error (message : jsstring).

Inductive Result (A : Type) : Type :=
| Ok (value : A)
| Throw (e : JsError).
Arguments Ok {A} value.
Arguments Throw {A} e.

End JS.
Import JS.

(** ** The secure random source *)

(** The state of the platform that the service reads: the bytes the secure
    random source will hand out, and how many were handed out so far.  Any
    sequence of bytes is a possible [entropy]. *)
Record World : Type := mkWorld {
  entropy : nat -> byte;
  cursor : nat
}.

(** Computations that read the random source and may throw. *)
Definition IO (A : Type) : Type := World -> Result A * World.

Definition ret {A} (a : A) : IO A := fun w => (Ok a, w).

Definition throw {A} (e : JsError) : IO A := fun w => (Throw e, w).

Definition bind {A B} (m : IO A) (k : A -> IO B) : IO B :=
  fun w =>
    match m w with
    | (Ok a, w') => k a w'
    | (Throw e, w') => (Throw e, w')
    end.

Notation "'let!' x ':=' m 'in' k" := (bind m (fun x => k))
  (at level 10, x name, m at level 100, k at level 200).

(** [new Uint8Array(length)]: [length] zero bytes. *)
Definition Uint8Array := list byte.

Definition new_Uint8Array (length : N) : Uint8Array :=
  repeat x00 (N.to_nat length).

(** The next [n] bytes of the random source, and the source after them. *)
Definition draw (n : nat) (w : World) : list byte :=
  map (fun i => entropy w (cursor w + i)%nat) (seq 0 n).

Definition advance (n : nat) (w : World) : World :=
  mkWorld (entropy w) (cursor w + n).

(** [crypto.getRandomValues(array)] (Web Cryptography API, section 10.1.1):
    an array of more than 65536 bytes is refused with a
    [QuotaExceededError]; otherwise every element is overwritten in place
    with the next byte of the random source.  The array after the call is
    the value returned here. *)
Definition getRandomValues (array : Uint8Array) : IO Uint8Array :=
  fun w =>
    if 65536 <? N.of_nat (List.length array) then (Throw QuotaExceededError, w)
    else (Ok (draw (List.length array) w), advance (List.length array) w).

(** ** TextEncoder *)

Module TextEncoder.

Definition byte_of_N (n : N) : byte :=
  match Byte.of_N (n mod 256) with
  | Some b => b
  | None => x00
  end.

Definition is_high_surrogate (u : N) : bool := (0xD800 <=? u) && (u <=? 0xDBFF).
Definition is_low_surrogate (u : N) : bool := (0xDC00 <=? u) && (u <=? 0xDFFF).

(** Conversion of a string to scalar values: a surrogate pair is one code
    point, a surrogate on its own becomes U+FFFD. *)
Fixpoint code_points (s : jsstring) : list N :=
  match s with
  | [] => []
  | u :: rest =>
      if is_high_surrogate u then
        match rest with
        | v :: rest' =>
            if is_low_surrogate v
            then (0x10000 + (u - 0xD800) * 0x400 + (v - 0xDC00)) :: code_points rest'
            else 0xFFFD :: code_points rest
        | [] => [0xFFFD]
        end
      else if is_low_surrogate u then 0xFFFD :: code_points rest
      else u :: code_points rest
  end.

(** UTF-8 encoding of one scalar value. *)
Definition utf8 (cp : N) : list byte :=
  if cp <? 0x80 then [byte_of_N cp]
  else if cp <? 0x800 then
    [byte_of_N (N.lor 0xC0 (N.shiftr cp 6));
     byte_of_N (N.lor 0x80 (N.land cp 0x3F))]
  else if cp <? 0x10000 then
    [byte_of_N (N.lor 0xE0 (N.shiftr cp 12));
     byte_of_N (N.lor 0x80 (N.land (N.shiftr cp 6) 0x3F));
     byte_of_N (N.lor 0x80 (N.land cp 0x3F))]
  else
    [byte_of_N (N.lor 0xF0 (N.shiftr cp 18));
     byte_of_N (N.lor 0x80 (N.land (N.shiftr cp 12) 0x3F));
     byte_of_N (N.lor 0x80 (N.land (N.shiftr cp 6) 0x3F));
     byte_of_N (N.lor 0x80 (N.land cp 0x3F))].

(** [new TextEncoder().encode(s)]: the UTF-8 bytes of [s]. *)
Definition encode (s : jsstring) : Uint8Array :=
  flat_map utf8 (code_points s).

End TextEncoder.

(** ** crypto.subtle.digest *)

(** The secure hash algorithms of FIPS 180-4 that the service asks the
    platform for, on words held as numbers below [2^w]. *)
Module SHA.

Section Words.

Variable w : N.

Definition mask : N := 2 ^ w - 1.
Definition trunc (x : N) : N := N.land x mask.
Definition add (x y : N) : N := trunc (x + y).
Definition shr (n x : N) : N := N.shiftr x n.
Definition rotr (n x : N) : N :=
  trunc (N.lor (N.shiftr x n) (N.shiftl x (w - n))).
Definition rotl (n x : N) : N := rotr (w - n) x.
Definition not (x : N) : N := N.lxor x mask.

Definition Ch (x y z : N) : N := N.lxor (N.land x y) (N.land (not x) z).
Definition Maj (x y z : N) : N :=
  N.lxor (N.lxor (N.land x y) (N.land x z)) (N.land y z).
Definition Parity (x y z : N) : N := N.lxor (N.lxor x y) z.

(** Big-endian bytes of the [k]-byte number [x], and back. *)
Fixpoint be_bytes (k : nat) (x : N) : list N :=
  match k with
  | O => []
  | S k' => N.land (N.shiftr x (8 * N.of_nat k')) 0xFF :: be_bytes k' x
  end.

Definition be_word (bs : list N) : N :=
  fold_left (fun acc b => acc * 256 + b) bs 0.

Fixpoint chunks {A} (fuel size : nat) (l : list A) : list (list A) :=
  match fuel with
  | O => []
  | S fuel' =>
      match l with
      | [] => []
      | _ => firstn size l :: chunks fuel' size (skipn size l)
      end
  end.

(** Padding: the byte 0x80, zero bytes up to a multiple of the block size
    less the length field, then the bit length on [w / 4] bytes. *)
Definition pad (msg : list N) : list N :=
  let block := w * 2 in
  let lenfield := w / 4 in
  let len := N.of_nat (List.length msg) in
  let zeros := (block - (len + 1 + lenfield) mod block) mod block in
  msg ++ [0x80] ++ repeat 0 (N.to_nat zeros)
      ++ be_bytes (N.to_nat lenfield) (8 * len).

(** The padded message as blocks of sixteen words. *)
Definition blocks (msg : list N) : list (list N) :=
  let padded := pad msg in
  map (fun blk => map be_word (chunks 16 (N.to_nat (w / 8)) blk))
      (chunks (List.length padded) (N.to_nat (w * 2)) padded).

(** Message schedule, newest word first: [step] computes the next word
    from the sixteen before it. *)
Fixpoint extend (step : list N -> N) (n : nat) (rev_w : list N) : list N :=
  match n with
  | O => rev_w
  | S n' => extend step n' (step rev_w :: rev_w)
  end.

Definition schedule (step : list N -> N) (rounds : nat) (blk : list N) : list N :=
  rev (extend step (rounds - 16) (rev blk)).

End Words.

(** *** SHA-256 and SHA-512 *)

Record Sha2Params : Type := {
  wordsize : N;
  rounds : nat;
  K : list N;
  H0 : list N;
  Sigma0 : N * N * N;
  Sigma1 : N * N * N;
  sigma0 : N * N * N;
  sigma1 : N * N * N
}.

Section Sha2.

Variable P : Sha2Params.

Let w := wordsize P.

Definition bigSigma (r : N * N * N) (x : N) : N :=
  let '(a, b, c) := r in
  N.lxor (N.lxor (rotr w a x) (rotr w b x)) (rotr w c x).

Definition smallSigma (r : N * N * N) (x : N) : N :=
  let '(a, b, c) := r in
  N.lxor (N.lxor (rotr w a x) (rotr w b x)) (shr c x).

Definition sha2_step (rev_w : list N) : N :=
  add w (add w (smallSigma (sigma1 P) (nth 1 rev_w 0)) (nth 6 rev_w 0))
        (add w (smallSigma (sigma0 P) (nth 14 rev_w 0)) (nth 15 rev_w 0)).

Definition sha2_round (st : list N) (kw : N * N) : list N :=
  match st with
  | [a; b; c; d; e; f; g; h] =>
      let t1 := add w (add w (add w (add w h (bigSigma (Sigma1 P) e))
                                        (Ch w e f g)) (fst kw)) (snd kw) in
      let t2 := add w (bigSigma (Sigma0 P) a) (Maj a b c) in
      [add w t1 t2; a; b; c; add w d t1; e; f; g]
  | _ => st
  end.

Definition sha2_compress (h : list N) (blk : list N) : list N :=
  let ws := schedule sha2_step (rounds P) blk in
  let st := fold_left sha2_round (combine (K P) ws) h in
  map (fun p => add w (fst p) (snd p)) (combine h st).

Definition sha2 (msg : list N) : list N :=
  flat_map (be_bytes (N.to_nat (w / 8)))
           (fold_left sha2_compress (blocks w msg) (H0 P)).

End Sha2.

(** The constants of FIPS 180-4 (sections 4.2.2, 4.2.3, 5.3.3 and 5.3.5)
    are the first [w] bits of the fractional parts of the cube roots ([K])
    and of the square roots ([H0]) of the first primes. *)

Fixpoint primes_from (fuel : nat) (k : N) (found : list N) : list N :=
  match fuel with
  | O => rev found
  | S fuel' =>
      if forallb (fun p => negb (k mod p =? 0)) found
      then primes_from fuel' (k + 1) (k :: found)
      else primes_from fuel' (k + 1) found
  end.

(** The primes below 410: there are eighty of them. *)
Definition primes : list N := primes_from 408 2 [].

(** The integer [deg]-th root of [x], one bit at a time from bit [i - 1]. *)
Fixpoint root_bits (deg x : N) (i : nat) (r : N) : N :=
  match i with
  | O => r
  | S i' =>
      let r' := r + 2 ^ N.of_nat i' in
      root_bits deg x i' (if r' ^ deg <=? x then r' else r)
  end.

Definition frac_root (deg w p : N) : N :=
  trunc w (root_bits deg (p * 2 ^ (deg * w)) (N.to_nat (w + 5)) 0).

Definition K256 : list N :=
  Eval vm_compute in map (frac_root 3 32) (firstn 64 primes).

Definition H256 : list N :=
  Eval vm_compute in map (frac_root 2 32) (firstn 8 primes).

Definition K512 : list N :=
  Eval vm_compute in map (frac_root 3 64) (firstn 80 primes).

Definition H512 : list N :=
  Eval vm_compute in map (frac_root 2 64) (firstn 8 primes).

Definition sha256_params : Sha2Params :=
  {| wordsize := 32; rounds := 64; K := K256; H0 := H256;
     Sigma0 := (2, 13, 22); Sigma1 := (6, 11, 25);
     sigma0 := (7, 18, 3); sigma1 := (17, 19, 10) |}.

Definition sha512_params : Sha2Params :=
  {| wordsize := 64; rounds := 80; K := K512; H0 := H512;
     Sigma0 := (28, 34, 39); Sigma1 := (14, 18, 41);
     sigma0 := (1, 8, 7); sigma1 := (19, 61, 6) |}.

(** *** SHA-1 *)

Definition sha1_step (rev_w : list N) : N :=
  rotl 32 1 (N.lxor (N.lxor (nth 2 rev_w 0) (nth 7 rev_w 0))
                    (N.lxor (nth 13 rev_w 0) (nth 15 rev_w 0))).

Definition sha1_f (t : nat) (b c d : N) : N * N :=
  if Nat.ltb t 20 then (Ch 32 b c d, 0x5a827999)
  else if Nat.ltb t 40 then (Parity b c d, 0x6ed9eba1)
  else if Nat.ltb t 60 then (Maj b c d, 0x8f1bbcdc)
  else (Parity b c d, 0xca62c1d6).

Definition sha1_round (st : list N) (tw : nat * N) : list N :=
  match st with
  | [a; b; c; d; e] =>
      let '(f, k) := sha1_f (fst tw) b c d in
      let t := add 32 (add 32 (add 32 (add 32 (rotl 32 5 a) f) e) k) (snd tw) in
      [t; a; rotl 32 30 b; c; d]
  | _ => st
  end.

Definition H1 : list N :=
  [ 0x67452301; 0xefcdab89; 0x98badcfe; 0x10325476; 0xc3d2e1f0 ].

Definition sha1_compress (h : list N) (blk : list N) : list N :=
  let ws := schedule sha1_step 80 blk in
  let st := fold_left sha1_round (combine (seq 0 80) ws) h in
  map (fun p => add 32 (fst p) (snd p)) (combine h st).

Definition sha1 (msg : list N) : list N :=
  flat_map (be_bytes 4) (fold_left sha1_compress (blocks 32 msg) H1).

End SHA.

(** The algorithm identifiers the service passes to [crypto.subtle.digest]. *)
Inductive DigestName : Type := SHA_1 | SHA_256 | SHA_512.

(** [crypto.subtle.digest(name, data)], read back through
    [new Uint8Array(hashBuffer)]. *)
Definition subtle_digest (name : DigestName) (data : Uint8Array) : Uint8Array :=
  let msg := map Byte.to_N data in
  map TextEncoder.byte_of_N
      match name with
      | SHA_1 => SHA.sha1 msg
      | SHA_256 => SHA.sha2 SHA.sha256_params msg
      | SHA_512 => SHA.sha2 SHA.sha512_params msg
      end.

(** ** src/services/hash.ts *)

(** [byte => byte.toString(16).padStart(2, '0')] *)
Definition hexByte (b : byte) : jsstring :=
  padStart 2 (lit "0") (toString16 (Byte.to_N b)).

(** [length] is a non-negative integer; a call without argument passes 32. *)
Definition generateSalt (length : N) : IO jsstring :=
  let array := new_Uint8Array length in
  let! array := getRandomValues array in
  ret (join empty_string (map hexByte array)).

(** *** bcryptjs *)

(** The two functions of the [bcryptjs] package that the service calls.
    [bcrypt.hash(password, rounds)] draws its own salt from the random
    source; [bcrypt.compare(password, hash)] answers with a boolean, or
    rejects when the stored string cannot be parsed. *)
Class Bcrypt : Type := {
  bcrypt_hash : jsstring -> N -> IO jsstring;
  bcrypt_compare : jsstring -> jsstring -> Result bool
}.

(** What the package promises for a cost between 4 and 31: hashing
    succeeds, and the string it returns compares equal to the password it
    was made from. *)
Definition bcrypt_contract (B : Bcrypt) : Prop :=
  forall (password : jsstring) (rounds : N) (w : World),
    4 <= rounds <= 31 ->
    exists h w',
      bcrypt_hash password rounds w = (Ok h, w') /\
      bcrypt_compare password h = Ok true.

Record HashResult : Type := mkHashResult {
  hashedPassword : jsstring;
  salt : jsstring;
  algorithm : jsstring
}.

(** Asks the platform for ['SHA-256']: Web Crypto has no MD5. *)
Definition hashMD5 (password salt : jsstring) : jsstring :=
  let msgBuffer := TextEncoder.encode (password ++ salt) in
  let hashBuffer := subtle_digest SHA_256 msgBuffer in
  let hashArray := hashBuffer in
  join empty_string (map hexByte hashArray).

Definition hashSHA1 (password salt : jsstring) : jsstring :=
  let msgBuffer := TextEncoder.encode (password ++ salt) in
  let hashBuffer := subtle_digest SHA_1 msgBuffer in
  let hashArray := hashBuffer in
  join empty_string (map hexByte hashArray).

Definition hashSHA256 (password salt : jsstring) : jsstring :=
  let msgBuffer := TextEncoder.encode (password ++ salt) in
  let hashBuffer := subtle_digest SHA_256 msgBuffer in
  let hashArray := hashBuffer in
  join empty_string (map hexByte hashArray).

Definition hashSHA512 (password salt : jsstring) : jsstring :=
  let msgBuffer := TextEncoder.encode (password ++ salt) in
  let hashBuffer := subtle_digest SHA_512 msgBuffer in
  let hashArray := hashBuffer in
  join empty_string (map hexByte hashArray).

Section Service.

Context {B : Bcrypt}.

Definition hashBcrypt (password : jsstring) : IO jsstring :=
  let saltRounds := 10 in
  bcrypt_hash password saltRounds.

(** [new Error(`Unsupported algorithm: ${algorithm}`)] *)
Definition unsupported (algorithm : jsstring) : JsError :=
  Error (lit "Unsupported algorithm: " ++ algorithm).

Definition hashPassword (password algorithm : jsstring) : IO HashResult :=
  if strict_eq algorithm (lit "bcrypt") then
    let! hashedPassword := hashBcrypt password in
    ret (mkHashResult hashedPassword empty_string algorithm)
  else
    let! salt := generateSalt 32 in
    let! hashedPassword :=
      if strict_eq algorithm (lit "MD5") then ret (hashMD5 password salt)
      else if strict_eq algorithm (lit "SHA-1") then ret (hashSHA1 password salt)
      else if strict_eq algorithm (lit "SHA-256") then ret (hashSHA256 password salt)
      else if strict_eq algorithm (lit "SHA-512") then ret (hashSHA512 password salt)
      else throw (unsupported algorithm) in
    ret (mkHashResult hashedPassword salt algorithm).

(** [verifyPassword] reads no random byte, so it is a function to the
    outcome of its promise. *)
Definition verifyPassword (password storedHash salt algorithm : jsstring)
  : Result bool :=
  if strict_eq algorithm (lit "bcrypt") then
    bcrypt_compare password storedHash
  else
    match
      if strict_eq algorithm (lit "MD5") then Ok (hashMD5 password salt)
      else if strict_eq algorithm (lit "SHA-1") then Ok (hashSHA1 password salt)
      else if strict_eq algorithm (lit "SHA-256") then Ok (hashSHA256 password salt)
      else if strict_eq algorithm (lit "SHA-512") then Ok (hashSHA512 password salt)
      else Throw (unsupported algorithm)
    with
    | Ok newHash => Ok (strict_eq newHash storedHash)
    | Throw e => Throw e
    end.

End Service.

(** ** The words of the specification *)

Module Spec.

(** The sixteen lowercase hexadecimal digits. *)
Definition hex_digits : jsstring := lit "0123456789abcdef".

Definition is_lower_hex (c : N) : bool := existsb (N.eqb c) hex_digits.

(** A byte as two lowercase hex digits, high nibble first. *)
Definition two_hex_digits (b : byte) : jsstring :=
  [nth (N.to_nat (Byte.to_N b / 16)) hex_digits 0;
   nth (N.to_nat (Byte.to_N b mod 16)) hex_digits 0].

(** Each byte as two lowercase hex digits, concatenated in byte order. *)
Definition lower_hex (bytes : list byte) : jsstring :=
  flat_map two_hex_digits bytes.

(** The digest computed for each tag of a non-self-salting algorithm; for
    the MD5 tag it is SHA-256 (section 4.2, note on MD5). *)
Definition digest_of_tag (tag : jsstring) : option DigestName :=
  if strict_eq tag (lit "MD5") then Some SHA_256
  else if strict_eq tag (lit "SHA-1") then Some SHA_1
  else if strict_eq tag (lit "SHA-256") then Some SHA_256
  else if strict_eq tag (lit "SHA-512") then Some SHA_512
  else None.

(** The message that is hashed: the UTF-8 bytes of the password followed
    by the salt. *)
Definition message (password salt : jsstring) : list byte :=
  TextEncoder.encode (password ++ salt).

(** The fixed password and salt of the golden test of section 8. *)
Definition golden_password : jsstring := lit "correcthorsebatterystaple1".

Definition golden_salt : jsstring :=
  lit "0000000000000000000000000000000000000000000000000000000000000000".

(** The non-self-salting tags, and the closed set of all five. *)
Definition digest_tags : list jsstring :=
  [lit "MD5"; lit "SHA-1"; lit "SHA-256"; lit "SHA-512"].

Definition known_tags : list jsstring := digest_tags ++ [lit "bcrypt"].

End Spec.

(** ** Two concrete environments *)

(** A random source that only hands out zero bytes. *)
Definition zero_world : World := mkWorld (fun _ => x00) 0.

(** A random source that counts. *)
Definition counting_world : World :=
  mkWorld (fun i => TextEncoder.byte_of_N (N.of_nat i)) 0.

(** A self-salting scheme standing in for [bcryptjs] where a concrete one is
    needed: sixteen random bytes of salt, written in hex after a marker and
    followed by the salted SHA-256; [compare] reads the salt back. *)
Definition salted_hash (password : jsstring) (rounds : N) : IO jsstring :=
  fun w =>
    let s := Spec.lower_hex (draw 16 w) in
    (Ok (lit "$demo$" ++ s ++ hashSHA256 password s), advance 16 w).

Definition salted_compare (password h : jsstring) : Result bool :=
  let s := firstn 32 (skipn 6 h) in
  Ok (strict_eq (lit "$demo$" ++ s ++ hashSHA256 password s) h).

Definition salted_scheme : Bcrypt :=
  {| bcrypt_hash := salted_hash; bcrypt_compare := salted_compare |}.

(** ** Reading hex back *)

(** The value of a lowercase hex digit (0 for any other code unit), and the
    bytes written by a string of such digits, two by two. *)
Definition unhex_digit (c : N) : N :=
  if (48 <=? c) && (c <=? 57) then c - 48
  else if (97 <=? c) && (c <=? 102) then c - 87
  else 0.

Fixpoint unhex (s : jsstring) : list byte :=
  match s with
  | hi :: lo :: rest =>
      TextEncoder.byte_of_N (16 * unhex_digit hi + unhex_digit lo) :: unhex rest
  | _ => []
  end.

(** Hex length of the hash stored under each digest tag. *)
Definition hash_lengths : list (jsstring * nat) :=
  [(lit "MD5", 64%nat); (lit "SHA-1", 40%nat);
   (lit "SHA-256", 64%nat); (lit "SHA-512", 128%nat)].

(** ** More of the platform: trimming, JSON and localStorage *)

(** The code units [String.prototype.trim] removes: the white space and
    line terminators of ECMAScript. *)
Definition is_white_space (c : N) : bool :=
  existsb (N.eqb c)
    [0x0009; 0x000A; 0x000B; 0x000C; 0x000D; 0x0020; 0x00A0; 0x1680;
     0x2028; 0x2029; 0x202F; 0x205F; 0x3000; 0xFEFF]
  || ((0x2000 <=? c) && (c <=? 0x200A)).

Fixpoint trimStart (s : jsstring) : jsstring :=
  match s with
  | c :: s' => if is_white_space c then trimStart s' else s
  | [] => []
  end.

(** [s.trim()] *)
Definition trim (s : jsstring) : jsstring :=
  rev (trimStart (rev (trimStart s))).

(** [!s] for a string [s]: only the empty string is falsy. *)
Definition falsy (s : jsstring) : bool :=
  match s with
  | [] => true
  | _ :: _ => false
  end.

(** ** src/services/store.ts *)

Module Store.

Record User : Type := mkUser {
  username : jsstring;
  hashedPassword : jsstring;
  salt : jsstring;
  algorithm : jsstring;
  createdAt : jsstring
}.

(** [Omit<User, 'createdAt'>], the argument of [registerUser]. *)
Record NewUser : Type := mkNewUser {
  new_username : jsstring;
  new_hashedPassword : jsstring;
  new_salt : jsstring;
  new_algorithm : jsstring
}.

(** What the service takes from the language: [String.prototype.toLowerCase]
    (Unicode case mapping) and JSON.  [JSON.parse] is taken at the type the
    source asserts for its result ([as User[]]); [None] is a [SyntaxError]. *)
Class Platform : Type := {
  toLowerCase : jsstring -> jsstring;
  JSON_parse : jsstring -> option (list User);
  JSON_stringify : list User -> jsstring
}.

(** JSON text is never empty, and reading back what was written gives the
    same users. *)
Definition json_round_trip (P : Platform) : Prop :=
  forall users : list User,
    JSON_stringify users <> empty_string /\
    JSON_parse (JSON_stringify users) = Some users.

(** The browser as the service sees it: the items of [localStorage],
    whether access to it is denied (every call throws), which values it
    still has room for ([setItem] throws on the others), and the time as
    [new Date().toISOString()] prints it. *)
Record Browser : Type := mkBrowser {
  items : jsstring -> option jsstring;
  denied : bool;
  fits : jsstring -> bool;
  now : jsstring
}.

(** [localStorage.getItem], [setItem] and [removeItem]; [None] when the call
    throws. *)
Definition getItem (key : jsstring) (e : Browser) : option (option jsstring) :=
  if denied e then None else Some (items e key).

Definition setItem (key value : jsstring) (e : Browser) : option Browser :=
  if denied e || negb (fits e value) then None
  else Some (mkBrowser (fun k => if strict_eq k key then Some value else items e k)
                       (denied e) (fits e) (now e)).

Definition removeItem (key : jsstring) (e : Browser) : option Browser :=
  if denied e then None
  else Some (mkBrowser (fun k => if strict_eq k key then None else items e k)
                       (denied e) (fits e) (now e)).

Definition STORAGE_KEY : jsstring := lit "users_database".

(** [saveAllUsers]: the message [ไม่สามารถบันทึกข้อมูลได้]. *)
Definition cannot_save : jsstring :=
  [ 0x0E44; 0x0E21; 0x0E48; 0x0E2A; 0x0E32; 0x0E21; 0x0E32; 0x0E23;
    0x0E16; 0x0E1A; 0x0E31; 0x0E19; 0x0E17; 0x0E36; 0x0E01; 0x0E02;
    0x0E49; 0x0E2D; 0x0E21; 0x0E39; 0x0E25; 0x0E44; 0x0E14; 0x0E49 ].

(** [registerUser]: the message [ชื่อผู้ใช้นี้ถูกใช้งานแล้ว]. *)
Definition username_taken : jsstring :=
  [ 0x0E0A; 0x0E37; 0x0E48; 0x0E2D; 0x0E1C; 0x0E39; 0x0E49; 0x0E43;
    0x0E0A; 0x0E49; 0x0E19; 0x0E35; 0x0E49; 0x0E16; 0x0E39; 0x0E01;
    0x0E43; 0x0E0A; 0x0E49; 0x0E07; 0x0E32; 0x0E19; 0x0E41; 0x0E25;
    0x0E49; 0x0E27 ].

(** [registerUser]: the message [กรุณากระบุชื่อผู้ใช้]. *)
Definition username_missing : jsstring :=
  [ 0x0E01; 0x0E23; 0x0E38; 0x0E13; 0x0E32; 0x0E01; 0x0E23; 0x0E30;
    0x0E1A; 0x0E38; 0x0E0A; 0x0E37; 0x0E48; 0x0E2D; 0x0E1C; 0x0E39;
    0x0E49; 0x0E43; 0x0E0A; 0x0E49 ].

(** [registerUser]: the message [ข้อมูลรหัสผ่านไม่ถูกต้อง]. *)
Definition password_data_invalid : jsstring :=
  [ 0x0E02; 0x0E49; 0x0E2D; 0x0E21; 0x0E39; 0x0E25; 0x0E23; 0x0E2B;
    0x0E31; 0x0E2A; 0x0E1C; 0x0E48; 0x0E32; 0x0E19; 0x0E44; 0x0E21;
    0x0E48; 0x0E16; 0x0E39; 0x0E01; 0x0E15; 0x0E49; 0x0E2D; 0x0E07 ].

Section Functions.

Context {P : Platform}.

(** Every exception of the [try] block ends in the empty list. *)
Definition getAllUsers (e : Browser) : list User :=
  match getItem STORAGE_KEY e with
  | None => []
  | Some None => []
  | Some (Some data) =>
      if falsy data then []
      else match JSON_parse data with
           | Some users => users
           | None => []
           end
  end.

Definition saveAllUsers (users : list User) (e : Browser) : Result unit * Browser :=
  match setItem STORAGE_KEY (JSON_stringify users) e with
  | Some e' => (Ok tt, e')
  | None => (Throw (Error cannot_save), e)
  end.

(** [undefined] is [None]. *)
Definition findUserByUsername (name : jsstring) (e : Browser) : option User :=
  let users := getAllUsers e in
  find (fun user => strict_eq (toLowerCase (username user)) (toLowerCase name))
       users.

Definition isUsernameExists (name : jsstring) (e : Browser) : bool :=
  match findUserByUsername name e with
  | Some _ => true
  | None => false
  end.

Definition registerUser (user : NewUser) (e : Browser) : Result bool * Browser :=
  if isUsernameExists (new_username user) e then
    (Throw (Error username_taken), e)
  else if falsy (new_username user)
          || strict_eq (trim (new_username user)) empty_string then
    (Throw (Error username_missing), e)
  else if falsy (new_hashedPassword user) then
    (Throw (Error password_data_invalid), e)
  else
    let newUser :=
      mkUser (new_username user) (new_hashedPassword user) (new_salt user)
             (new_algorithm user) (now e) in
    let users := getAllUsers e in
    let users := users ++ [newUser] in
    match saveAllUsers users e with
    | (Ok _, e') => (Ok true, e')
    | (Throw err, e') => (Throw err, e')
    end.

Definition getAllUsersForDisplay (e : Browser) : list User := getAllUsers e.

Definition clearAllUsers (e : Browser) : bool * Browser :=
  match removeItem STORAGE_KEY e with
  | Some e' => (true, e')
  | None => (false, e)
  end.

Definition getUserCount (e : Browser) : nat := List.length (getAllUsers e).

Definition deleteUser (name : jsstring) (e : Browser) : Result bool * Browser :=
  let users := getAllUsers e in
  let filteredUsers :=
    filter (fun user =>
              negb (strict_eq (toLowerCase (username user)) (toLowerCase name)))
           users in
  if Nat.eqb (List.length filteredUsers) (List.length users) then (Ok false, e)
  else
    match saveAllUsers filteredUsers e with
    | (Ok _, e') => (Ok true, e')
    | (Throw err, e') => (Throw err, e')
    end.

End Functions.

End Store.

(** ** src/components/Login.tsx and Register.tsx *)

(** The submit handlers of the two forms, as functions from the state of
    the component when the form is submitted to its state when the handler
    is done, together with the name or the signal handed to the success
    callback that the handler schedules. *)
Module Forms.

(** Both forms: [กรุณากรอกชื่อผู้ใช้]. *)
Definition enter_username : jsstring :=
  [ 0x0E01; 0x0E23; 0x0E38; 0x0E13; 0x0E32; 0x0E01; 0x0E23; 0x0E2D;
    0x0E01; 0x0E0A; 0x0E37; 0x0E48; 0x0E2D; 0x0E1C; 0x0E39; 0x0E49;
    0x0E43; 0x0E0A; 0x0E49 ].

(** Both forms: [กรุณากรอกรหัสผ่าน]. *)
Definition enter_password : jsstring :=
  [ 0x0E01; 0x0E23; 0x0E38; 0x0E13; 0x0E32; 0x0E01; 0x0E23; 0x0E2D;
    0x0E01; 0x0E23; 0x0E2B; 0x0E31; 0x0E2A; 0x0E1C; 0x0E48; 0x0E32;
    0x0E19 ].

(** [handleLogin]: [ไม่พบชื่อผู้ใช้นี้ในระบบ]. *)
Definition user_not_found : jsstring :=
  [ 0x0E44; 0x0E21; 0x0E48; 0x0E1E; 0x0E1A; 0x0E0A; 0x0E37; 0x0E48;
    0x0E2D; 0x0E1C; 0x0E39; 0x0E49; 0x0E43; 0x0E0A; 0x0E49; 0x0E19;
    0x0E35; 0x0E49; 0x0E43; 0x0E19; 0x0E23; 0x0E30; 0x0E1A; 0x0E1A ].

(** [handleLogin]: [รหัสผ่านไม่ถูกต้อง]. *)
Definition wrong_password : jsstring :=
  [ 0x0E23; 0x0E2B; 0x0E31; 0x0E2A; 0x0E1C; 0x0E48; 0x0E32; 0x0E19;
    0x0E44; 0x0E21; 0x0E48; 0x0E16; 0x0E39; 0x0E01; 0x0E15; 0x0E49;
    0x0E2D; 0x0E07 ].

(** [handleLogin], before the user's name: [เข้าสู่ระบบสำเร็จ! ยินดีต้อนรับ ]. *)
Definition welcome : jsstring :=
  [ 0x0E40; 0x0E02; 0x0E49; 0x0E32; 0x0E2A; 0x0E39; 0x0E48; 0x0E23;
    0x0E30; 0x0E1A; 0x0E1A; 0x0E2A; 0x0E33; 0x0E40; 0x0E23; 0x0E47;
    0x0E08; 0x0021; 0x0020; 0x0E22; 0x0E34; 0x0E19; 0x0E14; 0x0E35;
    0x0E15; 0x0E49; 0x0E2D; 0x0E19; 0x0E23; 0x0E31; 0x0E1A; 0x0020 ].

(** [handleRegister]: [ชื่อผู้ใช้ต้องมีอย่างน้อย 3 ตัวอักษร]. *)
Definition username_too_short : jsstring :=
  [ 0x0E0A; 0x0E37; 0x0E48; 0x0E2D; 0x0E1C; 0x0E39; 0x0E49; 0x0E43;
    0x0E0A; 0x0E49; 0x0E15; 0x0E49; 0x0E2D; 0x0E07; 0x0E21; 0x0E35;
    0x0E2D; 0x0E22; 0x0E48; 0x0E32; 0x0E07; 0x0E19; 0x0E49; 0x0E2D;
    0x0E22; 0x0020; 0x0033; 0x0020; 0x0E15; 0x0E31; 0x0E27; 0x0E2D;
    0x0E31; 0x0E01; 0x0E29; 0x0E23 ].

(** [handleRegister]: [รหัสผ่านต้องมีอย่างน้อย 12 ตัวอักษร (เพื่อความปลอดภัย)]. *)
Definition password_too_short : jsstring :=
  [ 0x0E23; 0x0E2B; 0x0E31; 0x0E2A; 0x0E1C; 0x0E48; 0x0E32; 0x0E19;
    0x0E15; 0x0E49; 0x0E2D; 0x0E07; 0x0E21; 0x0E35; 0x0E2D; 0x0E22;
    0x0E48; 0x0E32; 0x0E07; 0x0E19; 0x0E49; 0x0E2D; 0x0E22; 0x0020;
    0x0031; 0x0032; 0x0020; 0x0E15; 0x0E31; 0x0E27; 0x0E2D; 0x0E31;
    0x0E01; 0x0E29; 0x0E23; 0x0020; 0x0028; 0x0E40; 0x0E1E; 0x0E37;
    0x0E48; 0x0E2D; 0x0E04; 0x0E27; 0x0E32; 0x0E21; 0x0E1B; 0x0E25;
    0x0E2D; 0x0E14; 0x0E20; 0x0E31; 0x0E22; 0x0029 ].

(** [handleRegister]: [รหัสผ่านไม่ตรงกัน]. *)
Definition passwords_differ : jsstring :=
  [ 0x0E23; 0x0E2B; 0x0E31; 0x0E2A; 0x0E1C; 0x0E48; 0x0E32; 0x0E19;
    0x0E44; 0x0E21; 0x0E48; 0x0E15; 0x0E23; 0x0E07; 0x0E01; 0x0E31;
    0x0E19 ].

(** [handleRegister]: [ชื่อผู้ใช้นี้ถูกใช้งานแล้ว กรุณาเลือกชื่ออื่น]. *)
Definition choose_another_name : jsstring :=
  [ 0x0E0A; 0x0E37; 0x0E48; 0x0E2D; 0x0E1C; 0x0E39; 0x0E49; 0x0E43;
    0x0E0A; 0x0E49; 0x0E19; 0x0E35; 0x0E49; 0x0E16; 0x0E39; 0x0E01;
    0x0E43; 0x0E0A; 0x0E49; 0x0E07; 0x0E32; 0x0E19; 0x0E41; 0x0E25;
    0x0E49; 0x0E27; 0x0020; 0x0E01; 0x0E23; 0x0E38; 0x0E13; 0x0E32;
    0x0E40; 0x0E25; 0x0E37; 0x0E2D; 0x0E01; 0x0E0A; 0x0E37; 0x0E48;
    0x0E2D; 0x0E2D; 0x0E37; 0x0E48; 0x0E19 ].

(** [handleRegister], before the algorithm: [สมัครสมาชิกสำเร็จ! (ใช้ ]. *)
Definition registered : jsstring :=
  [ 0x0E2A; 0x0E21; 0x0E31; 0x0E04; 0x0E23; 0x0E2A; 0x0E21; 0x0E32;
    0x0E0A; 0x0E34; 0x0E01; 0x0E2A; 0x0E33; 0x0E40; 0x0E23; 0x0E47;
    0x0E08; 0x0021; 0x0020; 0x0028; 0x0E43; 0x0E0A; 0x0E49; 0x0020 ].

Record LoginState : Type := mkLoginState {
  login_username : jsstring;
  login_password : jsstring;
  login_message : jsstring;
  login_isError : bool;
  login_isLoading : bool
}.

Record RegisterState : Type := mkRegisterState {
  reg_username : jsstring;
  reg_password : jsstring;
  reg_confirmPassword : jsstring;
  reg_algorithm : jsstring;
  reg_message : jsstring;
  reg_isError : bool;
  reg_isLoading : bool
}.

Section Handlers.

Context {B : Bcrypt} {P : Store.Platform}.

(** The text of a [QuotaExceededError], which is the browser's own. *)
Variable quota_message : jsstring.

(** [error instanceof Error ? error.message : ...]: every exception of the
    model is an [Error]. *)
Definition message_of (err : JsError) : jsstring :=
  match err with
  | Error message => message
  | QuotaExceededError => quota_message
  end.

(** The [try] block of [handleLogin]: the user that logs in, or the
    exception. *)
Definition login_attempt (username password : jsstring) (e : Store.Browser)
  : Result Store.User :=
  if falsy (trim username) then Throw (Error enter_username)
  else if falsy password then Throw (Error enter_password)
  else
    match Store.findUserByUsername username e with
    | None => Throw (Error user_not_found)
    | Some user =>
        match verifyPassword password (Store.hashedPassword user)
                             (Store.salt user) (Store.algorithm user) with
        | Throw err => Throw err
        | Ok isValid =>
            if negb isValid then Throw (Error wrong_password) else Ok user
        end
    end.

(** The state after the handler, and the argument of the scheduled
    [onLoginSuccess], if any. *)
Definition handleLogin (st : LoginState) (e : Store.Browser)
  : LoginState * option jsstring :=
  match login_attempt (login_username st) (login_password st) e with
  | Ok user =>
      (mkLoginState (login_username st) empty_string
                    (welcome ++ Store.username user) false false,
       Some (Store.username user))
  | Throw err =>
      (mkLoginState (login_username st) (login_password st)
                    (message_of err) true false,
       None)
  end.

(** The [try] block of [handleRegister], over the random source and the
    browser. *)
Definition register_attempt (username password confirmPassword algorithm : jsstring)
    (w : World) (e : Store.Browser) : Result unit * World * Store.Browser :=
  if falsy (trim username) then (Throw (Error enter_username), w, e)
  else if Nat.ltb (List.length username) 3 then
    (Throw (Error username_too_short), w, e)
  else if falsy password then (Throw (Error enter_password), w, e)
  else if Nat.ltb (List.length password) 12 then
    (Throw (Error password_too_short), w, e)
  else if negb (strict_eq password confirmPassword) then
    (Throw (Error passwords_differ), w, e)
  else if Store.isUsernameExists username e then
    (Throw (Error choose_another_name), w, e)
  else
    match hashPassword password algorithm w with
    | (Throw err, w') => (Throw err, w', e)
    | (Ok (mkHashResult result_hash result_salt result_algorithm), w') =>
        match Store.registerUser
                (Store.mkNewUser (trim username) result_hash result_salt
                                 result_algorithm)
                e with
        | (Throw err, e') => (Throw err, w', e')
        | (Ok _, e') => (Ok tt, w', e')
        end
    end.

(** The state after the handler, whether [onRegisterSuccess] is
    scheduled, and the random source and the browser afterwards. *)
Definition handleRegister (st : RegisterState) (w : World) (e : Store.Browser)
  : RegisterState * bool * World * Store.Browser :=
  match register_attempt (reg_username st) (reg_password st)
                         (reg_confirmPassword st) (reg_algorithm st) w e with
  | (Ok _, w', e') =>
      (mkRegisterState empty_string empty_string empty_string (reg_algorithm st)
                       (registered ++ reg_algorithm st ++ lit ")") false false,
       true, w', e')
  | (Throw err, w', e') =>
      (mkRegisterState (reg_username st) (reg_password st)
                       (reg_confirmPassword st) (reg_algorithm st)
                       (message_of err) true false,
       false, w', e')
  end.

End Handlers.

End Forms.

(** The test [findUserByUsername] and [deleteUser] apply to each stored
    user: the same name, case apart. *)
Definition same_name {P : Store.Platform} (name : jsstring) (user : Store.User)
  : bool :=
  strict_eq (Store.toLowerCase (Store.username user)) (Store.toLowerCase name).

(** The record [registerUser] stores for its argument: the four fields
    and the time of the call. *)
Definition stored (user : Store.NewUser) (e : Store.Browser) : Store.User :=
  Store.mkUser (Store.new_username user) (Store.new_hashedPassword user)
               (Store.new_salt user) (Store.new_algorithm user) (Store.now e).


(** ** A platform to run the store on *)

(** ASCII lower-casing, and in place of JSON a plain wire format: ['['],
    then for every user its five fields, each with its code units shifted
    up by one and closed by a zero. *)
Module Wire.

Definition lower_ascii (s : jsstring) : jsstring :=
  map (fun c => if (65 <=? c) && (c <=? 90) then c + 32 else c) s.

Definition write_field (s : jsstring) : jsstring := map N.succ s ++ [0].

Definition write_user (u : Store.User) : jsstring :=
  write_field (Store.username u) ++ write_field (Store.hashedPassword u)
  ++ write_field (Store.salt u) ++ write_field (Store.algorithm u)
  ++ write_field (Store.createdAt u).

Definition write (users : list Store.User) : jsstring :=
  0x5B :: flat_map write_user users.

(** The fields of a text, [cur] being the field under way, newest code
    unit first. *)
Fixpoint read_fields (s cur : jsstring) : option (list jsstring) :=
  match s with
  | [] => match cur with [] => Some [] | _ :: _ => None end
  | 0 :: s' => option_map (cons (rev cur)) (read_fields s' [])
  | c :: s' => read_fields s' (N.pred c :: cur)
  end.

Fixpoint read_users (fields : list jsstring) : option (list Store.User) :=
  match fields with
  | [] => Some []
  | a :: b :: c :: d :: e :: rest =>
      option_map (cons (Store.mkUser a b c d e)) (read_users rest)
  | _ => None
  end.

Definition read (text : jsstring) : option (list Store.User) :=
  match text with
  | 0x5B :: rest =>
      match read_fields rest [] with
      | Some fields => read_users fields
      | None => None
      end
  | _ => None
  end.

Definition platform : Store.Platform :=
  {| Store.toLowerCase := lower_ascii;
     Store.JSON_parse := read;
     Store.JSON_stringify := write |}.

(** A browser with nothing stored and room for everything. *)
Definition fresh_browser : Store.Browser :=
  Store.mkBrowser (fun _ => None) false (fun _ => true)
                  (lit "2025-01-01T00:00:00.000Z").

(** A new user, the browser that stores her, a browser whose stored text
    is not in the format, and one that denies access to [localStorage]. *)
Definition alice : Store.NewUser :=
  Store.mkNewUser (lit "Alice") (lit "00ff") (lit "ab") (lit "SHA-256").

Definition browser_with (text : jsstring) (locked : bool) : Store.Browser :=
  Store.mkBrowser
    (fun k => if strict_eq k Store.STORAGE_KEY then Some text else None)
    locked (fun _ => true) (lit "2025-01-01T00:00:00.000Z").

Definition with_alice : Store.Browser :=
  browser_with (write [stored alice fresh_browser]) false.

Definition garbled : Store.Browser := browser_with (lit "not json") false.

Definition locked : Store.Browser := browser_with (lit "not json") true.

(** A registration form filled in acceptably, and one with no name. *)
Definition good_form : Forms.RegisterState :=
  Forms.mkRegisterState (lit " Alice ") (lit "correct horse battery")
                        (lit "correct horse battery") (lit "SHA-256")
                        empty_string false false.

Definition blank_form : Forms.RegisterState :=
  Forms.mkRegisterState (lit "  ") (lit "correct horse battery")
                        (lit "correct horse battery") (lit "SHA-256")
                        empty_string false false.

(** The browser after [good_form] is submitted, and the login form of the
    same user. *)
Definition registered_browser : Store.Browser :=
  snd (Forms.handleRegister (B := salted_scheme) (P := platform) empty_string
         good_form counting_world fresh_browser).

Definition login_form : Forms.LoginState :=
  Forms.mkLoginState (lit "alice") (lit "correct horse battery")
                     empty_string false false.

End Wire.

(** ** Known answers of the platform model *)

Example encode_ascii :
  map Byte.to_N (TextEncoder.encode (lit "abc")) = [0x61; 0x62; 0x63].
Proof. reflexivity. Qed.

(** U+0E01 (three bytes), U+1F600 as a surrogate pair (four bytes), then a
    low surrogate on its own (U+FFFD). *)
Example encode_utf8 :
  map Byte.to_N (TextEncoder.encode [0x0E01; 0xD83D; 0xDE00; 0xDC00])
  = [0xE0; 0xB8; 0x81; 0xF0; 0x9F; 0x98; 0x80; 0xEF; 0xBF; 0xBD].
Proof. reflexivity. Qed.

(** The tables begin and end as printed in FIPS 180-4. *)
Example sha2_constants :
  List.length SHA.primes = 80%nat /\
  firstn 2 SHA.K256 = [0x428a2f98; 0x71374491] /\
  nth 63 SHA.K256 0 = 0xc67178f2 /\
  firstn 2 SHA.H256 = [0x6a09e667; 0xbb67ae85] /\
  firstn 2 SHA.K512 = [0x428a2f98d728ae22; 0x7137449123ef65cd] /\
  nth 79 SHA.K512 0 = 0x6c44198c4a475817 /\
  firstn 2 SHA.H512 = [0x6a09e667f3bcc908; 0xbb67ae8584caa73b].
Proof. vm_compute. repeat split. Qed.

Example sha1_abc :
  hashSHA1 (lit "abc") empty_string
  = lit "a9993e364706816aba3e25717850c26c9cd0d89d".
Proof. vm_compute. reflexivity. Qed.

Example sha256_abc :
  hashSHA256 (lit "abc") empty_string
  = lit "ba7816bf8f01cfea414140de5dae2223b00361a396177a9cb410ff61f20015ad".
Proof. vm_compute. reflexivity. Qed.

Example sha512_abc :
  hashSHA512 (lit "abc") empty_string
  = lit ("ddaf35a193617abacc417349ae20413112e6fa4e89a97ea20a9eeee64b55d39a"
         ++ "2192992a274fc1a836ba3c23a3feebbd454d4423643ce80e2a9ac94fa54ca49f").
Proof. vm_compute. reflexivity. Qed.

(** The golden vector of section 8: two blocks of SHA-256. *)
Example sha256_golden :
  hashSHA256 Spec.golden_password Spec.golden_salt
  = lit "23158217b910f0652fa81a5fef3721a458f65a5ea70e6f21a1b0c1a84cb5dce7".
Proof. vm_compute. reflexivity. Qed.

Example hexByte_pads : hexByte x0a = lit "0a" /\ hexByte xff = lit "ff".
Proof. split; reflexivity. Qed.

(** ** Strings and hex encoding *)

Lemma strict_eq_spec (a b : jsstring) : strict_eq a b = true <-> a = b.
Proof.
  revert b; induction a as [|x a IH]; intros [|y b]; simpl; split;
    try discriminate; try reflexivity.
  - intros H. apply andb_true_iff in H as [Hx Ha].
    apply N.eqb_eq in Hx. apply IH in Ha. now subst.
  - intros H. injection H as -> ->.
    apply andb_true_iff. split; [apply N.eqb_refl | now apply IH].
Qed.

Lemma strict_eq_refl (a : jsstring) : strict_eq a a = true.
Proof. now apply strict_eq_spec. Qed.

Lemma strict_eq_neq (a b : jsstring) : a <> b -> strict_eq a b = false.
Proof.
  intros H. destruct (strict_eq a b) eqn:E; [|reflexivity].
  apply strict_eq_spec in E. contradiction.
Qed.

Lemma hexByte_two_hex_digits (b : byte) : hexByte b = Spec.two_hex_digits b.
Proof. destruct b; reflexivity. Qed.

Lemma two_hex_digits_lower (b : byte) :
  forallb Spec.is_lower_hex (Spec.two_hex_digits b) = true.
Proof. destruct b; reflexivity. Qed.

Lemma join_empty_flat_map {A} (f : A -> jsstring) (l : list A) :
  join empty_string (map f l) = flat_map f l.
Proof.
  induction l as [|x l IH]; [reflexivity|].
  cbn [map flat_map]. rewrite <- IH.
  destruct l as [|y l]; cbn; [now rewrite app_nil_r | reflexivity].
Qed.

Lemma join_hexByte (bytes : list byte) :
  join empty_string (map hexByte bytes) = Spec.lower_hex bytes.
Proof.
  rewrite join_empty_flat_map. unfold Spec.lower_hex.
  induction bytes as [|b bytes IH]; [reflexivity|].
  cbn [flat_map]. now rewrite IH, hexByte_two_hex_digits.
Qed.

Lemma lower_hex_length (bytes : list byte) :
  List.length (Spec.lower_hex bytes) = (2 * List.length bytes)%nat.
Proof.
  induction bytes as [|b bytes IH]; [reflexivity|].
  cbn [Spec.lower_hex flat_map Spec.two_hex_digits app List.length].
  fold (Spec.lower_hex bytes). rewrite IH. lia.
Qed.

Lemma lower_hex_chars (bytes : list byte) :
  Forall (fun c => Spec.is_lower_hex c = true) (Spec.lower_hex bytes).
Proof.
  induction bytes as [|b bytes IH]; [constructor|].
  unfold Spec.lower_hex. cbn [flat_map]. apply Forall_app. split; [|exact IH].
  apply Forall_forall. apply forallb_forall. apply two_hex_digits_lower.
Qed.

(** ** The random source and the salt *)

Lemma draw_length (n : nat) (w : World) : List.length (draw n w) = n.
Proof. unfold draw. now rewrite length_map, length_seq. Qed.

Lemma new_Uint8Array_length (n : N) :
  List.length (new_Uint8Array n) = N.to_nat n.
Proof. apply repeat_length. Qed.

Lemma generateSalt_within_quota (n : N) (w : World) :
  n <= 65536 ->
  generateSalt n w = (Ok (Spec.lower_hex (draw (N.to_nat n) w)),
                      advance (N.to_nat n) w).
Proof.
  intros Hn. unfold generateSalt, bind, getRandomValues, ret.
  rewrite new_Uint8Array_length, N2Nat.id.
  destruct (N.ltb_spec 65536 n) as [Hlt|_]; [lia|].
  now rewrite join_hexByte.
Qed.

(** C4 (as amended).  For every length from 1 to 65536, the quota of the
    random source, [generateSalt] returns the bytes it drew, each written as
    two lowercase hexadecimal digits, in byte order: a string of twice as
    many characters as bytes, all of them lowercase hex digits. *)
Theorem generateSalt_hex_encoding (lengthBytes : N) (w : World) :
  1 <= lengthBytes <= 65536 ->
  let bytes := draw (N.to_nat lengthBytes) w in
  generateSalt lengthBytes w
    = (Ok (Spec.lower_hex bytes), advance (N.to_nat lengthBytes) w) /\
  N.of_nat (List.length bytes) = lengthBytes /\
  N.of_nat (List.length (Spec.lower_hex bytes)) = 2 * lengthBytes /\
  Forall (fun c => Spec.is_lower_hex c = true) (Spec.lower_hex bytes).
Proof.
  intros [_ Hq] bytes. subst bytes. repeat split.
  - now apply generateSalt_within_quota.
  - rewrite draw_length. apply N2Nat.id.
  - rewrite lower_hex_length, draw_length. lia.
  - apply lower_hex_chars.
Qed.

(** The default call [generateSalt()] yields 64 lowercase hex digits. *)
Lemma generateSalt_hex_encoding_witness :
  let bytes := draw 32 counting_world in
  generateSalt 32 counting_world
    = (Ok (Spec.lower_hex bytes), advance 32 counting_world) /\
  N.of_nat (List.length bytes) = 32 /\
  N.of_nat (List.length (Spec.lower_hex bytes)) = 64 /\
  Forall (fun c => Spec.is_lower_hex c = true) (Spec.lower_hex bytes).
Proof.
  apply (generateSalt_hex_encoding 32 counting_world). lia.
Defined.

(** C4 (as stated) fails above the quota: asked for 65537 bytes, the random
    source throws and [generateSalt] returns no string at all, let alone one
    of 131074 characters. *)
Lemma generateSalt_over_quota :
  generateSalt 65537 zero_world = (Throw QuotaExceededError, zero_world) /\
  ~ exists s w', generateSalt 65537 zero_world = (Ok s, w') /\
                 N.of_nat (List.length s) = 2 * 65537.
Proof.
  assert (E : generateSalt 65537 zero_world
              = (Throw QuotaExceededError, zero_world))
    by (vm_compute; reflexivity).
  split; [exact E|].
  intros (s & w' & H & _). rewrite E in H. discriminate H.
Qed.

(** ** Hashing and verifying *)

Ltac eval_tags :=
  repeat match goal with
         | |- context [strict_eq (lit ?a) (lit ?b)] =>
             let v := eval vm_compute in (strict_eq (lit a) (lit b)) in
             change (strict_eq (lit a) (lit b)) with v
         end;
  cbv iota.

Ltac salt_drawn :=
  unfold hashPassword, bind; eval_tags; cbv beta;
  rewrite generateSalt_within_quota by lia; unfold ret.

Section ServiceProperties.

Context {B : Bcrypt}.

(** C1.  For every password and every digest tag, [hashPassword] returns a
    record, and [verifyPassword] on the same password and the fields of
    that record returns true. *)
Theorem hash_then_verify (p a : jsstring) (w : World) :
  In a Spec.digest_tags ->
  exists r w',
    hashPassword p a w = (Ok r, w') /\
    verifyPassword p (hashedPassword r) (salt r) (algorithm r) = Ok true.
Proof.
  intros Hin. cbn [Spec.digest_tags In] in Hin.
  destruct Hin as [<-|[<-|[<-|[<-|[]]]]]; salt_drawn;
    (eexists; eexists; split; [reflexivity|]);
    cbn [hashedPassword salt algorithm]; unfold verifyPassword; eval_tags;
    now rewrite strict_eq_refl.
Qed.

(** C5.  The digest computed under the MD5 tag is the SHA-256 one:
    [hashMD5] and [hashSHA256] agree on every password and salt, and
    [hashPassword] under either tag stores the same hash for the same
    salt. *)
Theorem md5_label_is_sha256 :
  hashMD5 = hashSHA256 /\
  (forall p s, hashMD5 p s = hashSHA256 p s) /\
  (forall p w, exists h s w',
      hashPassword p (lit "MD5") w = (Ok (mkHashResult h s (lit "MD5")), w') /\
      hashPassword p (lit "SHA-256") w
        = (Ok (mkHashResult h s (lit "SHA-256")), w')).
Proof.
  split; [reflexivity|]. split; [reflexivity|].
  intros p w. do 3 eexists. split; salt_drawn; reflexivity.
Qed.

(** C9.  On the bcrypt tag the salt argument plays no part: the outcome is
    the one of [bcrypt.compare] on the password and the stored hash, so
    any two salts give the same outcome. *)
Theorem bcrypt_verify_ignores_salt (p h s1 s2 : jsstring) :
  verifyPassword p h s1 (lit "bcrypt") = bcrypt_compare p h /\
  verifyPassword p h s1 (lit "bcrypt") = verifyPassword p h s2 (lit "bcrypt").
Proof. split; reflexivity. Qed.

(** C10.  [verifyPassword] answers the same under the MD5 and the SHA-256
    tag, so a record made under one of them verifies when its tag is
    rewritten to the other. *)
Theorem md5_sha256_interchangeable :
  (forall p h s,
      verifyPassword p h s (lit "MD5") = verifyPassword p h s (lit "SHA-256")) /\
  (forall p w, exists r w',
      hashPassword p (lit "MD5") w = (Ok r, w') /\
      verifyPassword p (hashedPassword r) (salt r) (lit "SHA-256") = Ok true) /\
  (forall p w, exists r w',
      hashPassword p (lit "SHA-256") w = (Ok r, w') /\
      verifyPassword p (hashedPassword r) (salt r) (lit "MD5") = Ok true).
Proof.
  split; [reflexivity|].
  split; intros p w; salt_drawn;
    (eexists; eexists; split; [reflexivity|]);
    cbn [hashedPassword salt]; unfold verifyPassword; eval_tags;
    apply f_equal, strict_eq_refl.
Qed.

(** C2.  Under a digest tag, [verifyPassword] recomputes the lowercase hex
    of the tag's digest over the UTF-8 bytes of password followed by salt,
    and returns whether that string equals the stored hash. *)
Theorem verify_recomputes_and_compares (password storedHash s a : jsstring) :
  In a Spec.digest_tags ->
  exists d,
    Spec.digest_of_tag a = Some d /\
    let recomputed := Spec.lower_hex (subtle_digest d (Spec.message password s)) in
    verifyPassword password storedHash s a = Ok (strict_eq recomputed storedHash) /\
    (verifyPassword password storedHash s a = Ok true <-> recomputed = storedHash).
Proof.
  intros Hin. cbn [Spec.digest_tags In] in Hin.
  assert (Hiff : forall x : jsstring,
             Ok (strict_eq x storedHash) = Ok true <-> x = storedHash).
  { intros x. rewrite <- strict_eq_spec. split; [now intros [= ->]|now intros ->]. }
  destruct Hin as [<-|[<-|[<-|[<-|[]]]]];
    [exists SHA_256 | exists SHA_1 | exists SHA_256 | exists SHA_512];
    (split; [reflexivity|]);
    unfold verifyPassword; eval_tags;
    unfold hashMD5, hashSHA1, hashSHA256, hashSHA512; cbv zeta;
    rewrite join_hexByte; fold (Spec.message password s);
    (split; [reflexivity | apply Hiff]).
Qed.

(** C3.  Under a digest tag, [hashPassword] draws a fresh 32-byte salt with
    [generateSalt], hashes the UTF-8 bytes of the password followed by the
    salt string, and returns the hex of that digest with the salt and the
    tag it was given.  The order counts: on the golden password and salt,
    the digest of salt followed by password is another one. *)
Theorem hash_appends_salt (p a : jsstring) (w : World) :
  In a Spec.digest_tags ->
  exists d,
    Spec.digest_of_tag a = Some d /\
    let s := Spec.lower_hex (draw 32 w) in
    generateSalt 32 w = (Ok s, advance 32 w) /\
    hashPassword p a w
      = (Ok (mkHashResult
               (Spec.lower_hex (subtle_digest d (Spec.message p s))) s a),
         advance 32 w) /\
    Spec.lower_hex
        (subtle_digest d (Spec.message Spec.golden_salt Spec.golden_password))
      <> Spec.lower_hex
           (subtle_digest d (Spec.message Spec.golden_password Spec.golden_salt)).
Proof.
  intros Hin. cbn [Spec.digest_tags In] in Hin.
  destruct Hin as [<-|[<-|[<-|[<-|[]]]]];
    [exists SHA_256 | exists SHA_1 | exists SHA_256 | exists SHA_512];
    (split; [reflexivity|]); cbv zeta;
    (split; [now apply generateSalt_within_quota|]);
    (split;
     [ salt_drawn; unfold hashMD5, hashSHA1, hashSHA256, hashSHA512; cbv zeta;
       rewrite join_hexByte; reflexivity
     | intros H; vm_compute in H; discriminate H ]).
Qed.

(** C6.  With a [bcryptjs] that keeps its contract, [hashPassword] under
    the bcrypt tag calls [bcrypt.hash] with cost 10, returns its string with
    an empty salt, and [verifyPassword] accepts that record for the same
    password. *)
Theorem bcrypt_self_salting (p : jsstring) (w : World) :
  bcrypt_contract B ->
  hashBcrypt p = bcrypt_hash p 10 /\
  exists h w',
    bcrypt_hash p 10 w = (Ok h, w') /\
    hashPassword p (lit "bcrypt") w
      = (Ok (mkHashResult h empty_string (lit "bcrypt")), w') /\
    verifyPassword p h empty_string (lit "bcrypt") = Ok true.
Proof.
  intros HB. split; [reflexivity|].
  destruct (HB p 10 w) as (h & w' & Hh & Hc); [lia|].
  exists h, w'. split; [exact Hh|]. split.
  - unfold hashPassword, bind, hashBcrypt; eval_tags; cbv beta zeta.
    now rewrite Hh.
  - unfold verifyPassword; eval_tags. exact Hc.
Qed.

(** C7.  With a tag outside the five known ones, [hashPassword] and
    [verifyPassword] both end in the "Unsupported algorithm" error: the
    outcome is the exception, no record and no boolean. *)
Theorem unsupported_algorithm (p h s a : jsstring) (w : World) :
  ~ In a Spec.known_tags ->
  hashPassword p a w = (Throw (unsupported a), advance 32 w) /\
  verifyPassword p h s a = Throw (unsupported a).
Proof.
  intros Hout.
  assert (Hne : forall t, In t Spec.known_tags -> strict_eq a t = false).
  { intros t Ht. apply strict_eq_neq. intros ->. contradiction. }
  unfold hashPassword, verifyPassword, bind.
  rewrite (Hne (lit "bcrypt")), (Hne (lit "MD5")), (Hne (lit "SHA-1")),
    (Hne (lit "SHA-256")), (Hne (lit "SHA-512")) by (cbn; tauto).
  cbv beta. rewrite generateSalt_within_quota by lia. split; reflexivity.
Qed.

End ServiceProperties.

(** ** The stand-in scheme keeps the contract *)

Lemma salted_scheme_contract : bcrypt_contract salted_scheme.
Proof.
  intros p rounds w _. cbn [bcrypt_hash bcrypt_compare salted_scheme].
  unfold salted_hash, salted_compare.
  set (s := Spec.lower_hex (draw 16 w)).
  exists (lit "$demo$" ++ s ++ hashSHA256 p s), (advance 16 w).
  split; [reflexivity|].
  assert (Hs : firstn 32 (skipn 6 (lit "$demo$" ++ s ++ hashSHA256 p s)) = s).
  { cbn [lit app skipn].
    assert (Hl : List.length s = 32%nat)
      by (unfold s; now rewrite lower_hex_length, draw_length).
    rewrite <- Hl at 1. rewrite firstn_app, firstn_all, Nat.sub_diag.
    cbn [firstn]. apply app_nil_r. }
  rewrite Hs. now rewrite strict_eq_refl.
Qed.

(** ** The theorems at concrete inputs *)

Lemma hash_then_verify_witness :
  exists r w',
    hashPassword (B := salted_scheme) (lit "hunter2") (lit "SHA-512") counting_world
      = (Ok r, w') /\
    verifyPassword (B := salted_scheme)
        (lit "hunter2") (hashedPassword r) (salt r) (algorithm r)
      = Ok true.
Proof.
  apply (hash_then_verify (B := salted_scheme)). cbn. tauto.
Defined.

Lemma verify_recomputes_and_compares_witness :
  exists d,
    Spec.digest_of_tag (lit "SHA-1") = Some d /\
    let recomputed :=
      Spec.lower_hex (subtle_digest d (Spec.message (lit "abc") empty_string)) in
    verifyPassword (B := salted_scheme) (lit "abc")
        (lit "a9993e364706816aba3e25717850c26c9cd0d89d") empty_string (lit "SHA-1")
      = Ok (strict_eq recomputed (lit "a9993e364706816aba3e25717850c26c9cd0d89d")) /\
    (verifyPassword (B := salted_scheme) (lit "abc")
         (lit "a9993e364706816aba3e25717850c26c9cd0d89d") empty_string (lit "SHA-1")
       = Ok true
     <-> recomputed = lit "a9993e364706816aba3e25717850c26c9cd0d89d").
Proof.
  apply (verify_recomputes_and_compares (B := salted_scheme)). cbn. tauto.
Defined.

Lemma hash_appends_salt_witness :
  exists d,
    Spec.digest_of_tag (lit "MD5") = Some d /\
    let s := Spec.lower_hex (draw 32 zero_world) in
    generateSalt 32 zero_world = (Ok s, advance 32 zero_world) /\
    hashPassword (B := salted_scheme) Spec.golden_password (lit "MD5") zero_world
      = (Ok (mkHashResult
               (Spec.lower_hex
                  (subtle_digest d (Spec.message Spec.golden_password s)))
               s (lit "MD5")),
         advance 32 zero_world) /\
    Spec.lower_hex
        (subtle_digest d (Spec.message Spec.golden_salt Spec.golden_password))
      <> Spec.lower_hex
           (subtle_digest d (Spec.message Spec.golden_password Spec.golden_salt)).
Proof.
  apply (hash_appends_salt (B := salted_scheme)). cbn. tauto.
Defined.

Lemma bcrypt_self_salting_witness :
  hashBcrypt (B := salted_scheme) (lit "hunter2")
    = bcrypt_hash (Bcrypt := salted_scheme) (lit "hunter2") 10 /\
  exists h w',
    bcrypt_hash (Bcrypt := salted_scheme) (lit "hunter2") 10 counting_world
      = (Ok h, w') /\
    hashPassword (B := salted_scheme) (lit "hunter2") (lit "bcrypt") counting_world
      = (Ok (mkHashResult h empty_string (lit "bcrypt")), w') /\
    verifyPassword (B := salted_scheme) (lit "hunter2") h empty_string (lit "bcrypt")
      = Ok true.
Proof.
  apply (bcrypt_self_salting (B := salted_scheme)).
  exact salted_scheme_contract.
Defined.

Lemma unsupported_algorithm_witness :
  hashPassword (B := salted_scheme) (lit "hunter2") (lit "ROT13") zero_world
    = (Throw (unsupported (lit "ROT13")), advance 32 zero_world) /\
  verifyPassword (B := salted_scheme)
      (lit "hunter2") (lit "deadbeef") (lit "00") (lit "ROT13")
    = Throw (unsupported (lit "ROT13")).
Proof.
  apply (unsupported_algorithm (B := salted_scheme)).
  cbn. intros H. repeat destruct H as [H|H]; try discriminate H. exact H.
Defined.

(** ** The shape of the digests *)

Lemma be_bytes_length (k : nat) (x : N) : List.length (SHA.be_bytes k x) = k.
Proof. induction k as [|k IH]; cbn; [reflexivity | now rewrite IH]. Qed.

Lemma flat_map_length_const {A B} (f : A -> list B) (k : nat) (l : list A) :
  (forall x, List.length (f x) = k) ->
  List.length (flat_map f l) = (k * List.length l)%nat.
Proof.
  intros Hf. induction l as [|x l IH]; cbn [flat_map List.length]; [lia|].
  rewrite length_app, Hf, IH. lia.
Qed.

Lemma fold_left_invariant {A B} (Inv : A -> Prop) (f : A -> B -> A) :
  (forall a b, Inv a -> Inv (f a b)) ->
  forall l a, Inv a -> Inv (fold_left f l a).
Proof.
  intros Hf l. induction l as [|b l IH]; intros a Ha; cbn; [exact Ha|].
  apply IH, Hf, Ha.
Qed.

Ltac list_of_length st H :=
  repeat (destruct st as [|? st]; cbn in H; try discriminate H; try lia).

Lemma sha2_round_length (P : SHA.Sha2Params) (st : list N) (kw : N * N) :
  List.length st = 8%nat -> List.length (SHA.sha2_round P st kw) = 8%nat.
Proof. intros H. list_of_length st H. reflexivity. Qed.

Lemma sha2_compress_length (P : SHA.Sha2Params) (h blk : list N) :
  List.length h = 8%nat -> List.length (SHA.sha2_compress P h blk) = 8%nat.
Proof.
  intros H. unfold SHA.sha2_compress. cbv zeta.
  rewrite length_map, length_combine, H.
  rewrite (fold_left_invariant (fun st => List.length st = 8%nat));
    [reflexivity | | exact H].
  intros a b. apply sha2_round_length.
Qed.

Lemma sha2_length (P : SHA.Sha2Params) (msg : list N) :
  List.length (SHA.H0 P) = 8%nat ->
  List.length (SHA.sha2 P msg) = (N.to_nat (SHA.wordsize P / 8) * 8)%nat.
Proof.
  intros H. unfold SHA.sha2.
  rewrite (flat_map_length_const _ _ _ (be_bytes_length _)). f_equal.
  apply (fold_left_invariant (fun st => List.length st = 8%nat)); [|exact H].
  intros a b. apply sha2_compress_length.
Qed.

Lemma sha1_round_length (st : list N) (tw : nat * N) :
  List.length st = 5%nat -> List.length (SHA.sha1_round st tw) = 5%nat.
Proof.
  intros H. list_of_length st H. unfold SHA.sha1_round.
  now destruct (SHA.sha1_f _ _ _ _).
Qed.

Lemma sha1_length (msg : list N) : List.length (SHA.sha1 msg) = 20%nat.
Proof.
  unfold SHA.sha1.
  rewrite (flat_map_length_const _ _ _ (be_bytes_length _)).
  rewrite (fold_left_invariant (fun st => List.length st = 5%nat));
    [reflexivity | | reflexivity].
  intros h blk Hh. unfold SHA.sha1_compress. cbv zeta.
  rewrite length_map, length_combine, Hh.
  rewrite (fold_left_invariant (fun st => List.length st = 5%nat));
    [reflexivity | | exact Hh].
  intros a b. apply sha1_round_length.
Qed.

(** The number of bytes [crypto.subtle.digest] returns. *)
Lemma subtle_digest_length (name : DigestName) (data : Uint8Array) :
  List.length (subtle_digest name data)
  = match name with SHA_1 => 20 | SHA_256 => 32 | SHA_512 => 64 end%nat.
Proof.
  unfold subtle_digest. rewrite length_map. destruct name.
  - apply sha1_length.
  - now rewrite sha2_length.
  - now rewrite sha2_length.
Qed.

(** ** Further properties of the hash service *)

Lemma unhex_two_hex_digits (b : byte) (rest : jsstring) :
  unhex (Spec.two_hex_digits b ++ rest) = b :: unhex rest.
Proof. destruct b; reflexivity. Qed.

Lemma unhex_lower_hex (bytes : list byte) : unhex (Spec.lower_hex bytes) = bytes.
Proof.
  induction bytes as [|b bytes IH]; [reflexivity|].
  unfold Spec.lower_hex. cbn [flat_map]. fold (Spec.lower_hex bytes).
  now rewrite unhex_two_hex_digits, IH.
Qed.

Lemma hex_of_digest_shape (name : DigestName) (data : Uint8Array) :
  List.length (join empty_string (map hexByte (subtle_digest name data)))
  = (2 * match name with SHA_1 => 20 | SHA_256 => 32 | SHA_512 => 64 end)%nat /\
  Forall (fun c => Spec.is_lower_hex c = true)
         (join empty_string (map hexByte (subtle_digest name data))).
Proof.
  rewrite join_hexByte, lower_hex_length, subtle_digest_length.
  split; [reflexivity | apply lower_hex_chars].
Qed.

Ltac digest_shape :=
  unfold hashMD5, hashSHA1, hashSHA256, hashSHA512; cbv zeta;
  first [ exact (proj1 (hex_of_digest_shape SHA_1 _))
        | exact (proj1 (hex_of_digest_shape SHA_256 _))
        | exact (proj1 (hex_of_digest_shape SHA_512 _))
        | apply (proj2 (hex_of_digest_shape _ _)) ].

(** X1.  Every digest function returns lowercase hex of a fixed length: 40
    characters for SHA-1, 64 for SHA-256 and for the MD5 label, 128 for
    SHA-512, whatever the password and the salt. *)
Theorem digest_hex_shape (password s : jsstring) :
  (List.length (hashMD5 password s) = 64 /\
   List.length (hashSHA1 password s) = 40 /\
   List.length (hashSHA256 password s) = 64 /\
   List.length (hashSHA512 password s) = 128)%nat /\
  Forall (fun c => Spec.is_lower_hex c = true) (hashMD5 password s) /\
  Forall (fun c => Spec.is_lower_hex c = true) (hashSHA1 password s) /\
  Forall (fun c => Spec.is_lower_hex c = true) (hashSHA256 password s) /\
  Forall (fun c => Spec.is_lower_hex c = true) (hashSHA512 password s).
Proof.
  unfold hashMD5, hashSHA1, hashSHA256, hashSHA512. cbv zeta.
  rewrite !join_hexByte, !lower_hex_length, !subtle_digest_length.
  repeat split; apply lower_hex_chars.
Qed.

(** X2.  The hex encoding of the service loses nothing: two byte arrays
    that are written as the same string are the same array (the digits
    can be read back two by two). *)
Theorem hex_encoding_injective (a b : Uint8Array) :
  join empty_string (map hexByte a) = join empty_string (map hexByte b) ->
  a = b.
Proof.
  rewrite !join_hexByte. intros H.
  apply (f_equal unhex) in H. now rewrite !unhex_lower_hex in H.
Qed.

Lemma hex_encoding_injective_witness :
  join empty_string (map hexByte [x0a; xff]) = lit "0aff" /\
  [x0a; xff] = unhex (lit "0aff").
Proof.
  split; [reflexivity|].
  apply (hex_encoding_injective [x0a; xff] (unhex (lit "0aff"))). reflexivity.
Defined.

Lemma hash_lengths_cases (a : jsstring) (n : nat) :
  In (a, n) hash_lengths ->
  (a = lit "MD5" /\ n = 64%nat) \/ (a = lit "SHA-1" /\ n = 40%nat) \/
  (a = lit "SHA-256" /\ n = 64%nat) \/ (a = lit "SHA-512" /\ n = 128%nat).
Proof.
  cbn [hash_lengths In].
  intros [H|[H|[H|[H|[]]]]]; injection H as <- <-; auto 6.
Qed.

Section MoreServiceProperties.

Context {B : Bcrypt}.

(** X3.  Under a digest tag the record [hashPassword] returns has a salt
    of 64 lowercase hex digits, a hash of the hex length of its tag (64
    under the MD5 label), and the tag it was asked for; the call reads
    exactly 32 bytes of the random source. *)
Theorem digest_record_shape (p a : jsstring) (n : nat) (w : World) :
  In (a, n) hash_lengths ->
  exists r,
    hashPassword p a w = (Ok r, advance 32 w) /\
    algorithm r = a /\
    List.length (salt r) = 64%nat /\
    Forall (fun c => Spec.is_lower_hex c = true) (salt r) /\
    List.length (hashedPassword r) = n /\
    Forall (fun c => Spec.is_lower_hex c = true) (hashedPassword r).
Proof.
  intros Hin.
  destruct (hash_lengths_cases _ _ Hin) as [[-> ->]|[[-> ->]|[[-> ->]|[-> ->]]]];
    clear Hin; salt_drawn; (eexists; split; [reflexivity|]);
    cbn [hashedPassword salt algorithm];
    (split; [reflexivity|]);
    (split; [now rewrite lower_hex_length, draw_length|]);
    (split; [apply lower_hex_chars|]);
    split; digest_shape.
Qed.

(** X4.  Under a digest tag, a stored hash whose length is not the hex
    length of the tag is rejected with false for every password and salt;
    so a 32-digit MD5 value stored under the MD5 label never verifies. *)
Theorem verify_rejects_wrong_length (p h s a : jsstring) (n : nat) :
  In (a, n) hash_lengths ->
  List.length h <> n ->
  verifyPassword p h s a = Ok false.
Proof.
  intros Hin Hlen.
  destruct (hash_lengths_cases _ _ Hin) as [[-> ->]|[[-> ->]|[[-> ->]|[-> ->]]]];
    clear Hin; unfold verifyPassword; eval_tags; f_equal;
    apply strict_eq_neq; intros <-; apply Hlen; digest_shape.
Qed.

(** X5.  Under a digest tag, a stored hash with a character that is not a
    lowercase hex digit (an uppercase digit, say) is rejected with false:
    the comparison does not fold case. *)
Theorem verify_rejects_non_hex (p h s a : jsstring) :
  In a Spec.digest_tags ->
  Exists (fun c => Spec.is_lower_hex c = false) h ->
  verifyPassword p h s a = Ok false.
Proof.
  intros Hin Hbad. apply Exists_exists in Hbad as (c & Hc & Hno).
  assert (Hall : forall x, Forall (fun c => Spec.is_lower_hex c = true) x ->
                           strict_eq x h = false).
  { intros x Hx. apply strict_eq_neq. intros ->.
    rewrite Forall_forall in Hx. specialize (Hx c Hc). congruence. }
  cbn [Spec.digest_tags In] in Hin.
  destruct Hin as [<-|[<-|[<-|[<-|[]]]]];
    unfold verifyPassword; eval_tags; f_equal; apply Hall;
    digest_shape.
Qed.

(** X6.  Password and salt are joined with no separator: under any tag
    but bcrypt, moving characters from the end of the password to the
    front of the salt changes neither the hash nor the outcome of
    [verifyPassword]. *)
Theorem salt_boundary_unmarked (p x h s a : jsstring) :
  a <> lit "bcrypt" ->
  hashMD5 (p ++ x) s = hashMD5 p (x ++ s) /\
  hashSHA1 (p ++ x) s = hashSHA1 p (x ++ s) /\
  hashSHA256 (p ++ x) s = hashSHA256 p (x ++ s) /\
  hashSHA512 (p ++ x) s = hashSHA512 p (x ++ s) /\
  verifyPassword (p ++ x) h s a = verifyPassword p h (x ++ s) a.
Proof.
  intros Ha. unfold verifyPassword, hashMD5, hashSHA1, hashSHA256, hashSHA512.
  rewrite (strict_eq_neq _ _ Ha), <- !app_assoc. repeat split.
Qed.

(** X7.  Two calls of [hashPassword] in a row under digest tags never share
    random bytes: the first salt is written from the next 32 bytes of the
    source and the second from the 32 after them, so the two records have
    the same salt only if the source repeats itself. *)
Theorem successive_salts_are_fresh (p1 p2 a1 a2 : jsstring) (w : World) :
  In a1 Spec.digest_tags ->
  In a2 Spec.digest_tags ->
  exists r1 r2,
    (let! r1 := hashPassword p1 a1 in
     let! r2 := hashPassword p2 a2 in
     ret (r1, r2)) w = (Ok (r1, r2), advance 64 w) /\
    salt r1 = Spec.lower_hex (draw 32 w) /\
    salt r2 = Spec.lower_hex (draw 32 (advance 32 w)) /\
    (salt r1 = salt r2 -> draw 32 w = draw 32 (advance 32 w)).
Proof.
  intros H1 H2. cbn [Spec.digest_tags In] in H1, H2.
  assert (Hadv : advance 32 (advance 32 w) = advance 64 w).
  { unfold advance. cbn [entropy cursor]. f_equal. lia. }
  destruct H1 as [<-|[<-|[<-|[<-|[]]]]];
    destruct H2 as [<-|[<-|[<-|[<-|[]]]]];
    salt_drawn; cbv beta iota;
    rewrite generateSalt_within_quota by lia; cbv beta iota;
    change (N.to_nat 32) with 32%nat; rewrite Hadv;
    (eexists; eexists; split; [reflexivity|]);
    cbn [salt];
    (split; [reflexivity|]); (split; [reflexivity|]);
    intros H; apply (f_equal unhex) in H;
    now rewrite !unhex_lower_hex in H.
Qed.

End MoreServiceProperties.

(** ** The bytes that are hashed *)

Lemma code_points_app_bounded (n : nat) :
  forall p s : jsstring,
    (List.length p <= n)%nat ->
    match s with
    | [] => True
    | v :: _ => TextEncoder.is_low_surrogate v = false
    end ->
    TextEncoder.code_points (p ++ s)
    = TextEncoder.code_points p ++ TextEncoder.code_points s.
Proof.
  induction n as [|n IH]; intros p s Hlen Hs.
  - destruct p; [reflexivity | cbn in Hlen; lia].
  - destruct p as [|u [|v p']]; [reflexivity | |].
    + cbn [app TextEncoder.code_points].
      destruct (TextEncoder.is_high_surrogate u);
        [|destruct (TextEncoder.is_low_surrogate u); reflexivity].
      destruct s as [|v s']; [reflexivity|]. now rewrite Hs.
    + cbn [List.length] in Hlen.
      change ((u :: v :: p') ++ s) with (u :: v :: (p' ++ s)).
      cbn [TextEncoder.code_points].
      assert (Hv : TextEncoder.code_points (v :: p' ++ s)
                   = TextEncoder.code_points (v :: p')
                     ++ TextEncoder.code_points s)
        by (apply (IH (v :: p') s); [cbn; lia | exact Hs]).
      assert (Hp : TextEncoder.code_points (p' ++ s)
                   = TextEncoder.code_points p' ++ TextEncoder.code_points s)
        by (apply IH; [lia | exact Hs]).
      cbn [TextEncoder.code_points] in Hv.
      destruct (TextEncoder.is_high_surrogate u).
      * destruct (TextEncoder.is_low_surrogate v).
        -- now rewrite Hp.
        -- now rewrite Hv.
      * destruct (TextEncoder.is_low_surrogate u); now rewrite Hv.
Qed.

Lemma encode_ascii_units (s : jsstring) :
  Forall (fun c => c < 0x80) s ->
  TextEncoder.encode s = map TextEncoder.byte_of_N s.
Proof.
  unfold TextEncoder.encode. induction 1 as [|c s Hc _ IH]; [reflexivity|].
  cbn [TextEncoder.code_points map].
  assert (Hhi : TextEncoder.is_high_surrogate c = false).
  { unfold TextEncoder.is_high_surrogate.
    destruct (N.leb_spec 0xD800 c); [lia | reflexivity]. }
  assert (Hlo : TextEncoder.is_low_surrogate c = false).
  { unfold TextEncoder.is_low_surrogate.
    destruct (N.leb_spec 0xDC00 c); [lia | reflexivity]. }
  rewrite Hhi, Hlo. cbn [flat_map]. rewrite IH.
  unfold TextEncoder.utf8. destruct (N.ltb_spec c 0x80); [reflexivity | lia].
Qed.

Lemma lower_hex_is_ascii (s : jsstring) :
  Forall (fun c => Spec.is_lower_hex c = true) s -> Forall (fun c => c < 0x80) s.
Proof.
  apply Forall_impl. intros c Hc.
  unfold Spec.is_lower_hex in Hc. apply existsb_exists in Hc as (d & Hd & Hcd).
  apply N.eqb_eq in Hcd. subst d.
  assert (Hall : Forall (fun c => c < 0x80) Spec.hex_digits)
    by (repeat constructor).
  rewrite Forall_forall in Hall. now apply Hall.
Qed.

Lemma encode_app_ascii (p s : jsstring) :
  Forall (fun c => c < 0x80) s ->
  TextEncoder.encode (p ++ s)
  = TextEncoder.encode p ++ map TextEncoder.byte_of_N s.
Proof.
  intros Hs. rewrite <- (encode_ascii_units s Hs). unfold TextEncoder.encode.
  rewrite (code_points_app_bounded (List.length p)), flat_map_app;
    [reflexivity | lia |].
  destruct Hs as [|c s Hc _]; [exact I|].
  unfold TextEncoder.is_low_surrogate.
  destruct (N.leb_spec 0xDC00 c); [lia | reflexivity].
Qed.

Section MessageBytes.

Context {B : Bcrypt}.

(** X8.  Under a digest tag the stored hash is the digest of the UTF-8
    bytes of the password followed by the salt string taken as ASCII
    text, one byte for each of its 64 hex digits, and not by the 32 random
    bytes the salt was written from; the password's encoding is never
    affected by the salt that follows it. *)
Theorem hashed_bytes_are_password_then_salt_text (p a : jsstring) (w : World) :
  In a Spec.digest_tags ->
  exists d r w',
    Spec.digest_of_tag a = Some d /\
    hashPassword p a w = (Ok r, w') /\
    hashedPassword r
    = Spec.lower_hex
        (subtle_digest d
           (TextEncoder.encode p ++ map TextEncoder.byte_of_N (salt r))) /\
    List.length (map TextEncoder.byte_of_N (salt r)) = 64%nat.
Proof.
  intros Hin. cbn [Spec.digest_tags In] in Hin.
  assert (Hmsg : forall bytes,
             TextEncoder.encode (p ++ Spec.lower_hex bytes)
             = TextEncoder.encode p
               ++ map TextEncoder.byte_of_N (Spec.lower_hex bytes)).
  { intros bytes. apply encode_app_ascii, lower_hex_is_ascii, lower_hex_chars. }
  destruct Hin as [<-|[<-|[<-|[<-|[]]]]];
    [exists SHA_256 | exists SHA_1 | exists SHA_256 | exists SHA_512];
    salt_drawn; (eexists; eexists; split; [reflexivity|]);
    (split; [reflexivity|]); cbn [hashedPassword salt];
    unfold hashMD5, hashSHA1, hashSHA256, hashSHA512; cbv zeta;
    rewrite join_hexByte, Hmsg;
    (split; [reflexivity|]);
    now rewrite length_map, lower_hex_length, draw_length.
Qed.

End MessageBytes.

(** ** The user store *)

Module StoreFacts.

Import Store.

Lemma falsy_spec (s : jsstring) : falsy s = true <-> s = empty_string.
Proof. destruct s; cbn; split; intros H; try reflexivity; discriminate H. Qed.

Lemma falsy_false (s : jsstring) : s <> empty_string -> falsy s = false.
Proof. destruct s; [contradiction | reflexivity]. Qed.

Lemma trimStart_not_blank (s : jsstring) :
  trimStart s <> [] -> Exists (fun c => is_white_space c = false) s.
Proof.
  induction s as [|c s IH]; cbn; [contradiction|].
  destruct (is_white_space c) eqn:E; intros H.
  - apply Exists_cons_tl, IH, H.
  - now apply Exists_cons_hd.
Qed.

Lemma trim_not_blank (s : jsstring) :
  trim s <> empty_string -> Exists (fun c => is_white_space c = false) s.
Proof.
  intros H. apply trimStart_not_blank. intros Hs. apply H.
  unfold trim. now rewrite Hs.
Qed.

Section Facts.

Context {P : Platform}.

Lemma same_name_ext (q name : jsstring) (l : list User) :
  toLowerCase q = toLowerCase name ->
  find (same_name q) l = find (same_name name) l.
Proof. intros H. unfold same_name. now rewrite H. Qed.

Lemma saved_users_are_read_back (users : list User) (e e' : Browser) :
  json_round_trip P ->
  saveAllUsers users e = (Ok tt, e') ->
  getAllUsers e' = users /\
  (forall k, k <> STORAGE_KEY -> items e' k = items e k) /\
  denied e' = denied e /\ fits e' = fits e /\ now e' = now e.
Proof.
  intros HJ. destruct (HJ users) as [Hne Hrt].
  unfold saveAllUsers, setItem.
  destruct (denied e || negb (fits e (JSON_stringify users))) eqn:E;
    [discriminate|].
  intros [= <-]. apply orb_false_iff in E as [Hd _].
  split; [|split; [|now repeat split]].
  - unfold getAllUsers, getItem. cbn [denied items]. rewrite Hd.
    rewrite strict_eq_refl, (falsy_false _ Hne), Hrt. reflexivity.
  - intros k Hk. cbn [items]. now rewrite (strict_eq_neq _ _ Hk).
Qed.

Lemma save_succeeds (users : list User) (e : Browser) :
  denied e = false -> fits e (JSON_stringify users) = true ->
  exists e', saveAllUsers users e = (Ok tt, e').
Proof.
  intros Hd Hf. unfold saveAllUsers, setItem. rewrite Hd, Hf. cbn.
  eexists. reflexivity.
Qed.

Lemma find_app_last {A} (f : A -> bool) (l : list A) (x : A) :
  find f l = None -> f x = true -> find f (l ++ [x]) = Some x.
Proof.
  induction l as [|y l IH]; cbn; intros Hn Hx; [now rewrite Hx|].
  destruct (f y); [discriminate | now apply IH].
Qed.


Lemma filter_keeps_all {A} (f : A -> bool) (l : list A) :
  (forall x, In x l -> f x = true) -> filter f l = l.
Proof.
  induction l as [|y l IH]; cbn; intros H; [reflexivity|].
  rewrite (H y (or_introl eq_refl)), IH; [reflexivity|].
  intros x Hx. apply H. now right.
Qed.

Lemma find_same_name (name : jsstring) (e : Browser) :
  findUserByUsername name e = find (same_name name) (getAllUsers e).
Proof. reflexivity. Qed.

Lemma no_user_named (name : jsstring) (e : Browser) :
  isUsernameExists name e = false ->
  find (same_name name) (getAllUsers e) = None.
Proof.
  unfold isUsernameExists. rewrite find_same_name.
  now destruct (find _ _).
Qed.

Lemma deleteUser_same_name (q : jsstring) (e : Browser) :
  deleteUser q e
  = let kept := filter (fun v => negb (same_name q v)) (getAllUsers e) in
    if Nat.eqb (List.length kept) (List.length (getAllUsers e))
    then (Ok false, e)
    else match saveAllUsers kept e with
         | (Ok _, e') => (Ok true, e')
         | (Throw err, e') => (Throw err, e')
         end.
Proof. reflexivity. Qed.



(** What a successful [registerUser] went through. *)
Lemma registerUser_ok (user : NewUser) (e e' : Browser) (b : bool) :
  registerUser user e = (Ok b, e') ->
  b = true /\
  isUsernameExists (new_username user) e = false /\
  trim (new_username user) <> empty_string /\
  new_hashedPassword user <> empty_string /\
  saveAllUsers (getAllUsers e ++ [stored user e]) e = (Ok tt, e').
Proof.
  unfold registerUser. fold (stored user e).
  destruct (isUsernameExists _ e); [discriminate|].
  destruct (falsy (new_username user)) eqn:Hu; [discriminate|]. cbn [orb].
  destruct (strict_eq (trim _) empty_string) eqn:Ht; [discriminate|].
  destruct (falsy (new_hashedPassword user)) eqn:Hh; [discriminate|].
  destruct (saveAllUsers _ e) as [[[]|err] e1] eqn:Hs; [|discriminate].
  intros [= <- <-]. repeat split; try reflexivity.
  - intros Hx. apply strict_eq_spec in Hx. congruence.
  - intros Hx. apply falsy_spec in Hx. congruence.
Qed.

Lemma registerUser_accepts (user : NewUser) (e : Browser) :
  json_round_trip P ->
  isUsernameExists (new_username user) e = false ->
  trim (new_username user) <> empty_string ->
  new_hashedPassword user <> empty_string ->
  denied e = false ->
  fits e (JSON_stringify (getAllUsers e ++ [stored user e])) = true ->
  exists e',
    registerUser user e = (Ok true, e') /\
    getAllUsers e' = getAllUsers e ++ [stored user e] /\
    (forall k, k <> STORAGE_KEY -> items e' k = items e k).
Proof.
  intros HJ Hnew Hname Hhash Hd Hfit.
  destruct (save_succeeds _ e Hd Hfit) as [e' Hsave].
  destruct (saved_users_are_read_back _ _ _ HJ Hsave) as (Hread & Hkeys & _).
  exists e'. split; [|split; [exact Hread | exact Hkeys]].
  unfold registerUser. fold (stored user e). rewrite Hnew.
  assert (Hne : new_username user <> empty_string)
    by (intros Hx; apply Hname; now rewrite Hx).
  rewrite (falsy_false _ Hne), (strict_eq_neq _ _ Hname),
    (falsy_false _ Hhash), Hsave. reflexivity.
Qed.

Lemma found_after_append (q name : jsstring) (x : User) (e e' : Browser) :
  getAllUsers e' = getAllUsers e ++ [x] ->
  isUsernameExists name e = false ->
  username x = name ->
  toLowerCase q = toLowerCase name ->
  findUserByUsername q e' = Some x.
Proof.
  intros Hread Hnew Hx Hq. rewrite find_same_name, Hread.
  rewrite (same_name_ext q name) by exact Hq.
  apply find_app_last; [now apply no_user_named|].
  unfold same_name. rewrite Hx. apply strict_eq_refl.
Qed.

(** X9.  A user that [registerUser] accepts is appended to the stored list
    and is then found under every spelling of the name that lower-cases
    to the same string; the other items of [localStorage] are left
    alone. *)
Theorem register_then_find (user : NewUser) (e : Browser) :
  json_round_trip P ->
  isUsernameExists (new_username user) e = false ->
  trim (new_username user) <> empty_string ->
  new_hashedPassword user <> empty_string ->
  denied e = false ->
  fits e (JSON_stringify (getAllUsers e ++ [stored user e])) = true ->
  exists e',
    registerUser user e = (Ok true, e') /\
    getAllUsers e' = getAllUsers e ++ [stored user e] /\
    (forall q, toLowerCase q = toLowerCase (new_username user) ->
               findUserByUsername q e' = Some (stored user e)) /\
    (forall k, k <> STORAGE_KEY -> items e' k = items e k).
Proof.
  intros HJ Hnew Hname Hhash Hd Hfit.
  destruct (registerUser_accepts user e HJ Hnew Hname Hhash Hd Hfit)
    as (e' & Hreg & Hread & Hkeys).
  exists e'. repeat split; try assumption.
  intros q Hq.
  now apply (found_after_append q (new_username user) _ e e').
Qed.




(** X13.  [deleteUser] on a name that is not found returns false and
    writes nothing. *)
Theorem delete_unknown_name (q : jsstring) (e : Browser) :
  findUserByUsername q e = None ->
  deleteUser q e = (Ok false, e).
Proof.
  rewrite find_same_name. intros Hf. rewrite deleteUser_same_name. cbv zeta.
  rewrite filter_keeps_all; [now rewrite Nat.eqb_refl|].
  intros v Hv. cbv beta. now rewrite (find_none _ _ Hf v Hv).
Qed.

(** X14.  A stored text that is not JSON counts as no users at all, and
    the next successful [registerUser] replaces it by the list of the one
    new user. *)
Theorem unreadable_storage_is_replaced (data : jsstring) (user : NewUser)
    (e : Browser) :
  json_round_trip P ->
  items e STORAGE_KEY = Some data ->
  JSON_parse data = None ->
  trim (new_username user) <> empty_string ->
  new_hashedPassword user <> empty_string ->
  denied e = false ->
  fits e (JSON_stringify [stored user e]) = true ->
  getAllUsers e = [] /\
  exists e',
    registerUser user e = (Ok true, e') /\
    getAllUsers e' = [stored user e] /\
    items e' STORAGE_KEY = Some (JSON_stringify [stored user e]).
Proof.
  intros HJ Hdata Hbad Hname Hhash Hd Hfit.
  assert (Hnone : getAllUsers e = []).
  { unfold getAllUsers, getItem. rewrite Hd, Hdata, Hbad.
    now destruct (falsy data). }
  split; [exact Hnone|].
  destruct (save_succeeds _ e Hd Hfit) as [e' Hsave].
  destruct (saved_users_are_read_back _ _ _ HJ Hsave) as (Hread & _).
  exists e'. split; [|split; [exact Hread|]].
  - unfold registerUser, isUsernameExists. fold (stored user e).
    rewrite find_same_name, Hnone. cbn [find app].
    assert (Hne : new_username user <> empty_string)
      by (intros Hx; apply Hname; now rewrite Hx).
    rewrite (falsy_false _ Hne), (strict_eq_neq _ _ Hname),
      (falsy_false _ Hhash), Hsave. reflexivity.
  - unfold saveAllUsers, setItem in Hsave. rewrite Hd, Hfit in Hsave.
    cbn in Hsave. injection Hsave as <-. cbn [items].
    now rewrite strict_eq_refl.
Qed.

(** X15.  When [localStorage] is denied or has no room for the new list,
    [registerUser] on an acceptable new user throws the "cannot save"
    error and leaves the browser as it was. *)
Theorem register_without_room (user : NewUser) (e : Browser) :
  isUsernameExists (new_username user) e = false ->
  trim (new_username user) <> empty_string ->
  new_hashedPassword user <> empty_string ->
  denied e = true \/
  fits e (JSON_stringify (getAllUsers e ++ [stored user e])) = false ->
  registerUser user e = (Throw (Error cannot_save), e).
Proof.
  intros Hnew Hname Hhash Hroom.
  unfold registerUser. fold (stored user e). rewrite Hnew.
  assert (Hne : new_username user <> empty_string)
    by (intros Hx; apply Hname; now rewrite Hx).
  rewrite (falsy_false _ Hne), (strict_eq_neq _ _ Hname), (falsy_false _ Hhash).
  unfold saveAllUsers, setItem.
  destruct Hroom as [-> | ->]; [reflexivity|].
  now rewrite orb_true_r.
Qed.

(** X16.  [registerUser] never stores a user whose name is empty or all
    white space, or whose hash is empty: whenever it returns, it returns
    true, the name has a character that is not white space, the hash is
    not empty and no stored user had the name. *)
Theorem register_never_stores_blank (user : NewUser) (b : bool)
    (e e' : Browser) :
  registerUser user e = (Ok b, e') ->
  b = true /\
  Exists (fun c => is_white_space c = false) (new_username user) /\
  new_hashedPassword user <> empty_string /\
  findUserByUsername (new_username user) e = None.
Proof.
  intros H. apply registerUser_ok in H as (Hb & Hnew & Hname & Hhash & _).
  repeat split; [exact Hb | now apply trim_not_blank | exact Hhash |].
  now apply no_user_named.
Qed.

(** X17.  Every exception of [registerUser] leaves the browser as it was:
    the stored list is rewritten only by a call that returns true. *)
Theorem register_failure_writes_nothing (user : NewUser) (err : JsError)
    (e e' : Browser) :
  registerUser user e = (Throw err, e') -> e' = e.
Proof.
  unfold registerUser, saveAllUsers.
  destruct (isUsernameExists _ e); [now intros [= _ <-]|].
  destruct (falsy (new_username user) || _); [now intros [= _ <-]|].
  destruct (falsy (new_hashedPassword user)); [now intros [= _ <-]|].
  destruct (setItem _ _ e); [discriminate | now intros [= _ <-]].
Qed.

(** X21.  Resetting: when [localStorage] can be reached, [clearAllUsers]
    returns true, and afterwards there is no user, the count is zero and
    every name is free again, while the other items are kept. *)
Theorem clear_then_empty (e : Browser) :
  denied e = false ->
  exists e',
    clearAllUsers e = (true, e') /\
    getAllUsers e' = [] /\
    getUserCount e' = 0%nat /\
    (forall name, isUsernameExists name e' = false) /\
    (forall k, k <> STORAGE_KEY -> items e' k = items e k).
Proof.
  intros Hd. unfold clearAllUsers, removeItem. rewrite Hd.
  eexists. split; [reflexivity|].
  assert (Hnone : forall e0 : Browser,
             denied e0 = false -> items e0 STORAGE_KEY = None ->
             getAllUsers e0 = []).
  { intros e0 H0 H1. unfold getAllUsers, getItem. now rewrite H0, H1. }
  assert (Hempty : getAllUsers
                     (mkBrowser
                        (fun k => if strict_eq k STORAGE_KEY then None
                                  else items e k)
                        false (fits e) (now e)) = []).
  { apply Hnone; cbn [denied items]; [reflexivity | now rewrite strict_eq_refl]. }
  split; [exact Hempty|]. split; [unfold getUserCount; now rewrite Hempty|].
  split.
  - intros name. unfold isUsernameExists. rewrite find_same_name, Hempty.
    reflexivity.
  - intros k Hk. cbn [items]. now rewrite (strict_eq_neq _ _ Hk).
Qed.

End Facts.

End StoreFacts.

(** ** Trimming *)





(** ** The stand-in platform keeps the JSON law *)

Lemma read_fields_write_field (s cur rest : jsstring) :
  Wire.read_fields (Wire.write_field s ++ rest) cur
  = option_map (cons (rev cur ++ s)) (Wire.read_fields rest []).
Proof.
  unfold Wire.write_field. revert cur.
  induction s as [|c s IH]; intros cur.
  - cbn. now rewrite app_nil_r.
  - cbn [map app]. cbn [Wire.read_fields].
    destruct (N.succ c) eqn:E; [lia|]. rewrite <- E, N.pred_succ, IH.
    cbn [rev]. now rewrite <- app_assoc.
Qed.

Lemma read_fields_write_user (u : Store.User) (rest : jsstring) :
  Wire.read_fields (Wire.write_user u ++ rest) []
  = option_map
      (fun fields =>
         Store.username u :: Store.hashedPassword u :: Store.salt u
         :: Store.algorithm u :: Store.createdAt u :: fields)
      (Wire.read_fields rest []).
Proof.
  unfold Wire.write_user. rewrite <- !app_assoc.
  rewrite !read_fields_write_field. cbn [rev app].
  now destruct (Wire.read_fields rest []).
Qed.

Lemma wire_round_trip : Store.json_round_trip Wire.platform.
Proof.
  intros users. split; [discriminate|].
  cbn [Store.JSON_parse Store.JSON_stringify Wire.platform].
  unfold Wire.write, Wire.read.
  induction users as [|[a b c d e] users IH]; [reflexivity|].
  cbn [flat_map]. rewrite read_fields_write_user.
  destruct (Wire.read_fields (flat_map Wire.write_user users) []) as [fields|];
    [|discriminate IH].
  cbn [option_map Store.username Store.hashedPassword Store.salt
       Store.algorithm Store.createdAt Wire.read_users].
  now rewrite IH.
Qed.

(** ** The two forms *)

Module FormsFacts.

Import Forms.

Section Facts.

Context {B : Bcrypt} {P : Store.Platform}.

Variable quota_message : jsstring.


Lemma registerUser_throws_unchanged (user : Store.NewUser) (err : JsError)
    (e e' : Store.Browser) :
  Store.registerUser user e = (Throw err, e') -> e' = e.
Proof.
  unfold Store.registerUser, Store.saveAllUsers.
  destruct (Store.isUsernameExists _ e); [now intros [= _ <-]|].
  destruct (falsy (Store.new_username user) || _); [now intros [= _ <-]|].
  destruct (falsy (Store.new_hashedPassword user)); [now intros [= _ <-]|].
  destruct (Store.setItem _ _ e); [discriminate | now intros [= _ <-]].
Qed.



(** X19.  A registration that ends in an error stores nothing: whenever
    [handleRegister] does not schedule [onRegisterSuccess], the browser is
    as before, the error flag is set and the form keeps what was typed. *)
Theorem failed_registration_stores_nothing (st st' : RegisterState)
    (w w' : World) (e e' : Store.Browser) :
  handleRegister quota_message st w e = (st', false, w', e') ->
  e' = e /\
  reg_isError st' = true /\
  reg_username st' = reg_username st /\
  reg_password st' = reg_password st /\
  reg_confirmPassword st' = reg_confirmPassword st.
Proof.
  unfold handleRegister.
  destruct (register_attempt _ _ _ _ w e) as [[[[]|err] w1] e1] eqn:Hatt;
    [discriminate|].
  intros [= <- <- <-]. repeat split. revert Hatt. unfold register_attempt.
  repeat match goal with
         | |- context [if ?c then _ else _] =>
             destruct c; [now intros [= _ _ <-]|]
         end.
  destruct (hashPassword _ _ w) as [[[h s a]|err'] w2]; [|now intros [= _ _ <-]].
  destruct (Store.registerUser _ e) as [[?|err''] e2] eqn:Hreg; [discriminate|].
  intros [= _ _ <-].
  now apply (registerUser_throws_unchanged _ _ _ _ Hreg).
Qed.

(** X20.  [handleLogin] lets nobody in without a verified password:
    whenever it schedules [onLoginSuccess], the name it hands over is the
    name of a stored user that matches the typed name, case apart, the
    typed password is not empty and [verifyPassword] returned true for it
    on the hash, salt and algorithm of that very user. *)
Theorem login_only_after_verification (lst lst' : LoginState)
    (name : jsstring) (e : Store.Browser) :
  handleLogin quota_message lst e = (lst', Some name) ->
  exists user,
    In user (Store.getAllUsers e) /\
    Store.username user = name /\
    Store.toLowerCase (Store.username user)
      = Store.toLowerCase (login_username lst) /\
    login_password lst <> empty_string /\
    verifyPassword (login_password lst) (Store.hashedPassword user)
                   (Store.salt user) (Store.algorithm user) = Ok true /\
    login_isError lst' = false.
Proof.
  unfold handleLogin.
  destruct (login_attempt _ _ e) as [user|err] eqn:Hatt; [|discriminate].
  intros [= <- <-]. exists user. revert Hatt. unfold login_attempt.
  destruct (falsy (trim _)); [discriminate|].
  destruct (falsy (login_password lst)) eqn:Hpw; [discriminate|].
  rewrite StoreFacts.find_same_name.
  destruct (find _ _) as [found|] eqn:Hfind; [|discriminate].
  destruct (verifyPassword _ _ _ _) as [[|]|err] eqn:Hver; try discriminate.
  cbn [negb]. intros [= <-].
  apply find_some in Hfind as [Hin Hsame].
  unfold same_name in Hsame. apply strict_eq_spec in Hsame.
  repeat split; try assumption.
  intros Hx. apply StoreFacts.falsy_spec in Hx. congruence.
Qed.

End Facts.

End FormsFacts.

(** ** The further properties at concrete inputs *)

Lemma digest_record_shape_witness :
  exists r,
    hashPassword (B := salted_scheme) (lit "hunter2") (lit "MD5") counting_world
      = (Ok r, advance 32 counting_world) /\
    List.length (hashedPassword r) = 64%nat.
Proof.
  destruct (digest_record_shape (B := salted_scheme) (lit "hunter2") (lit "MD5")
              64 counting_world) as (r & H & _ & _ & _ & Hl & _).
  - cbn. tauto.
  - exists r. split; [exact H | exact Hl].
Defined.

(** The MD5 digest of the empty message, stored under the MD5 label. *)
Lemma verify_rejects_wrong_length_witness :
  verifyPassword (B := salted_scheme) empty_string
    (lit "d41d8cd98f00b204e9800998ecf8427e") empty_string (lit "MD5")
  = Ok false.
Proof.
  apply (verify_rejects_wrong_length (B := salted_scheme) _ _ _ _ 64).
  - cbn. tauto.
  - cbn. lia.
Defined.

(** The SHA-1 digest of "abc" in uppercase. *)
Lemma verify_rejects_non_hex_witness :
  verifyPassword (B := salted_scheme) (lit "abc")
    (lit "A9993E364706816ABA3E25717850C26C9CD0D89D") empty_string (lit "SHA-1")
  = Ok false.
Proof.
  apply (verify_rejects_non_hex (B := salted_scheme)).
  - cbn. tauto.
  - apply Exists_cons_hd. reflexivity.
Defined.

Lemma salt_boundary_unmarked_witness :
  verifyPassword (B := salted_scheme) (lit "pass" ++ lit "word") (lit "00")
                 (lit "ab") (lit "SHA-256")
  = verifyPassword (B := salted_scheme) (lit "pass") (lit "00")
                   (lit "word" ++ lit "ab") (lit "SHA-256").
Proof.
  apply (salt_boundary_unmarked (B := salted_scheme)). discriminate.
Defined.

Lemma successive_salts_are_fresh_witness :
  exists r1 r2,
    salt r1 = Spec.lower_hex (draw 32 counting_world) /\
    salt r2 = Spec.lower_hex (draw 32 (advance 32 counting_world)).
Proof.
  destruct (successive_salts_are_fresh (B := salted_scheme)
              (lit "one") (lit "two") (lit "MD5") (lit "SHA-512") counting_world)
    as (r1 & r2 & _ & H1 & H2 & _).
  - cbn. tauto.
  - cbn. tauto.
  - exists r1, r2. split; [exact H1 | exact H2].
Defined.

Lemma hashed_bytes_are_password_then_salt_text_witness :
  exists d r w',
    Spec.digest_of_tag (lit "SHA-1") = Some d /\
    hashPassword (B := salted_scheme) (lit "hunter2") (lit "SHA-1") zero_world
      = (Ok r, w') /\
    hashedPassword r
    = Spec.lower_hex
        (subtle_digest d
           (TextEncoder.encode (lit "hunter2")
              ++ map TextEncoder.byte_of_N (salt r))).
Proof.
  destruct (hashed_bytes_are_password_then_salt_text (B := salted_scheme)
              (lit "hunter2") (lit "SHA-1") zero_world)
    as (d & r & w' & Hd & Hh & Hb & _).
  - cbn. tauto.
  - exists d, r, w'. repeat split; assumption.
Defined.

Lemma register_then_find_witness :
  exists e',
    Store.registerUser (P := Wire.platform) Wire.alice Wire.fresh_browser
      = (Ok true, e') /\
    Store.findUserByUsername (P := Wire.platform) (lit "ALICE") e'
      = Some (stored Wire.alice Wire.fresh_browser).
Proof.
  destruct (StoreFacts.register_then_find (P := Wire.platform)
              Wire.alice Wire.fresh_browser) as (e' & Hreg & _ & Hfind & _).
  - exact wire_round_trip.
  - reflexivity.
  - discriminate.
  - discriminate.
  - reflexivity.
  - reflexivity.
  - exists e'. split; [exact Hreg|]. apply Hfind. reflexivity.
Defined.




Lemma delete_unknown_name_witness :
  Store.deleteUser (P := Wire.platform) (lit "bob") Wire.with_alice
  = (Ok false, Wire.with_alice).
Proof.
  apply (StoreFacts.delete_unknown_name (P := Wire.platform)). reflexivity.
Defined.

Lemma unreadable_storage_is_replaced_witness :
  Store.getAllUsers (P := Wire.platform) Wire.garbled = [] /\
  exists e',
    Store.registerUser (P := Wire.platform) Wire.alice Wire.garbled
      = (Ok true, e') /\
    Store.getAllUsers (P := Wire.platform) e' = [stored Wire.alice Wire.garbled].
Proof.
  destruct (StoreFacts.unreadable_storage_is_replaced (P := Wire.platform)
              (lit "not json") Wire.alice Wire.garbled)
    as (Hnone & e' & Hreg & Hread & _).
  - exact wire_round_trip.
  - reflexivity.
  - reflexivity.
  - discriminate.
  - discriminate.
  - reflexivity.
  - reflexivity.
  - split; [exact Hnone|]. exists e'. split; [exact Hreg | exact Hread].
Defined.

Lemma register_without_room_witness :
  Store.registerUser (P := Wire.platform) Wire.alice Wire.locked
  = (Throw (Error Store.cannot_save), Wire.locked).
Proof.
  apply (StoreFacts.register_without_room (P := Wire.platform)).
  - reflexivity.
  - discriminate.
  - discriminate.
  - left. reflexivity.
Defined.

Lemma register_never_stores_blank_witness :
  Exists (fun c => is_white_space c = false) (Store.new_username Wire.alice).
Proof.
  apply (StoreFacts.register_never_stores_blank (P := Wire.platform) Wire.alice
           true Wire.fresh_browser
           (snd (Store.registerUser (P := Wire.platform) Wire.alice
                   Wire.fresh_browser))).
  reflexivity.
Defined.

Lemma register_failure_writes_nothing_witness :
  snd (Store.registerUser (P := Wire.platform) Wire.alice Wire.with_alice)
  = Wire.with_alice.
Proof.
  apply (StoreFacts.register_failure_writes_nothing (P := Wire.platform)
           Wire.alice (Error Store.username_taken)).
  reflexivity.
Defined.


Lemma failed_registration_stores_nothing_witness :
  snd (Forms.handleRegister (B := salted_scheme) (P := Wire.platform)
         empty_string Wire.blank_form counting_world Wire.with_alice)
  = Wire.with_alice.
Proof.
  apply (FormsFacts.failed_registration_stores_nothing (B := salted_scheme)
           (P := Wire.platform) empty_string Wire.blank_form
           (fst (fst (fst (Forms.handleRegister (B := salted_scheme)
                             (P := Wire.platform) empty_string Wire.blank_form
                             counting_world Wire.with_alice))))
           counting_world counting_world).
  reflexivity.
Defined.

Lemma login_only_after_verification_witness :
  exists user,
    In user (Store.getAllUsers (P := Wire.platform) Wire.registered_browser) /\
    Store.username user = lit "Alice" /\
    verifyPassword (B := salted_scheme) (lit "correct horse battery")
        (Store.hashedPassword user) (Store.salt user) (Store.algorithm user)
      = Ok true.
Proof.
  destruct (FormsFacts.login_only_after_verification (B := salted_scheme)
              (P := Wire.platform) empty_string Wire.login_form
              (fst (Forms.handleLogin (B := salted_scheme) (P := Wire.platform)
                      empty_string Wire.login_form Wire.registered_browser))
              (lit "Alice") Wire.registered_browser)
    as (user & Hin & Hname & _ & _ & Hver & _).
  - vm_compute. reflexivity.
  - exists user. split; [exact Hin | split; [exact Hname | exact Hver]].
Defined.

Lemma clear_then_empty_witness :
  exists e',
    Store.clearAllUsers Wire.with_alice = (true, e') /\
    Store.getUserCount (P := Wire.platform) e' = 0%nat.
Proof.
  destruct (StoreFacts.clear_then_empty (P := Wire.platform) Wire.with_alice)
    as (e' & Hclear & _ & Hcount & _).
  - reflexivity.
  - exists e'. split; [exact Hclear | exact Hcount].
Defined.
